(** * b2eb.crop: content-bounds detection and batch cropping

    A shallow embedding of [src/b2eb/crop.py] ([find_content_bounds] and
    [process_folder]) together with the properties of the pipeline.

    Conventions.
    - A Pillow image is represented by the array that [np.array(im)]
      yields: a 2-D grid of integer samples, or a 3-D grid with a channel
      axis.
    - [np.mean] is computed in exact rational arithmetic ([Q]).  On a 2-D
      array of integer samples numpy's float64 sums are exact and the
      rounded quotient lies on the same side of the threshold as the exact
      mean (for fewer than 2^45 samples per axis), so [mean < threshold] is
      decided as numpy decides it.  On a 3-D array the channel means are
      rounded before they are averaged; the two can differ only when the
      exact mean is within about 1e-13 of the threshold.
      The mean of an empty axis is numpy's [nan], modelled by [None]; every
      comparison with [nan] is false.
    - Pillow, numpy and the operating system are represented by what the
      pipeline observes of them: [Image.crop] pads a box that leaves the
      image with zeros and rejects a box whose corners are out of order,
      [Image.save] writes a file whole or raises, and a folder name
      together with a file name stands for [os.path.join] of the two.
    - A rectangle is the 4-tuple [(left, top, right, bottom)] of the source. *)

From Stdlib Require Import String Ascii ZArith QArith List Bool Lia.
From Stdlib Require Import Permutation Sorted Mergesort.
Import ListNotations.

Set Implicit Arguments.

Local Open Scope Z_scope.

(** ** Arrays *)

Module Np.

(** [np.array(im)]: shape and nested sample lists.  [Arr2 h w px] has
    shape [(h, w)], [Arr3 h w c px] has shape [(h, w, c)]. *)
Inductive ndarray : Type :=
| Arr2 (h w : nat) (px : list (list Z))
| Arr3 (h w c : nat) (px : list (list (list Z))).

(** The nested lists agree with the shape; Pillow never produces a channel
    axis of length 0. *)
Definition wf_ndarray (a : ndarray) : Prop :=
  match a with
  | Arr2 h w px =>
      length px = h /\ Forall (fun r => length r = w) px
  | Arr3 h w c px =>
      length px = h /\ (0 < c)%nat /\
      Forall (fun r => length r = w /\ Forall (fun s => length s = c) r) px
  end.

(** A 2-D array of floats (here: exact rationals). *)
Record farray2 : Type := FArr2 { f_h : nat; f_w : nat; f_px : list (list Q) }.

Definition wf_farray2 (g : farray2) : Prop :=
  length (f_px g) = f_h g /\ Forall (fun r => length r = f_w g) (f_px g).

Definition Zsum (xs : list Z) : Z := fold_right Z.add 0 xs.
Definition Qsum (xs : list Q) : Q := fold_right Qplus 0%Q xs.

(** [np.mean(img_array, axis=2)] on one pixel: the channels' average. *)
Definition channel_mean (c : nat) (s : list Z) : Q :=
  Qmake (Zsum s) (Pos.of_nat c).

(** Lines 21-25: the array the thresholds are computed on. *)
Definition to_gray (a : ndarray) : farray2 :=
  match a with
  | Arr2 h w px => FArr2 h w (map (map inject_Z) px)
  | Arr3 h w c px => FArr2 h w (map (map (channel_mean c)) px)
  end.

(** [np.mean] of a 1-D slice; [None] is [nan]. *)
Definition np_mean (xs : list Q) : option Q :=
  match xs with
  | [] => None
  | _ :: _ => Some (Qsum xs / inject_Z (Z.of_nat (length xs)))%Q
  end.

(** Prepend the samples of one row to the columns collected so far. *)
Fixpoint zip_cons (r : list Q) (cols : list (list Q)) : list (list Q) :=
  match r, cols with
  | x :: r', col :: cols' => (x :: col) :: zip_cons r' cols'
  | _, _ => []
  end.

(** The [w] columns of a grid, each listed top to bottom. *)
Definition columns (w : nat) (px : list (list Q)) : list (list Q) :=
  fold_right zip_cons (repeat [] w) px.

(** [np.mean(img_array, axis=1)]: one mean per row. *)
Definition mean_axis1 (g : farray2) : list (option Q) :=
  map np_mean (f_px g).

(** [np.mean(img_array, axis=0)]: one mean per column. *)
Definition mean_axis0 (g : farray2) : list (option Q) :=
  map np_mean (columns (f_w g) (f_px g)).

Definition Qltb (x y : Q) : bool := negb (Qle_bool y x).

(** [m < threshold] for a float [m] that may be [nan]. *)
Definition lt_float (m : option Q) (t : Q) : bool :=
  match m with
  | Some q => Qltb q t
  | None => false
  end.

(** [np.where(flags)[0]]: the increasing list of indices holding [true]. *)
Fixpoint where_from (i : nat) (flags : list bool) : list nat :=
  match flags with
  | [] => []
  | b :: flags' =>
      if b then i :: where_from (S i) flags' else where_from (S i) flags'
  end.

Definition np_where (flags : list bool) : list nat := where_from 0 flags.

End Np.

Import Np.

(** ** Bounds Detector *)

Definition rect : Type := (Z * Z * Z * Z)%type.

Definition threshold : Q := 250%Q.
Definition padding : Z := 10.

(** Line 29: flags of the rows whose mean is below the threshold. *)
Definition row_flags (g : farray2) : list bool :=
  map (fun m => lt_float m threshold) (mean_axis1 g).

(** Line 30: flags of the columns whose mean is below the threshold. *)
Definition col_flags (g : farray2) : list bool :=
  map (fun m => lt_float m threshold) (mean_axis0 g).

(** [find_content_bounds] (lines 18-48); [None] is Python's [None]. *)
Definition find_content_bounds (im : ndarray) : option rect :=
  let img_array := to_gray im in
  let rows := np_where (row_flags img_array) in
  let cols := np_where (col_flags img_array) in
  if ((length rows =? 0)%nat || (length cols =? 0)%nat)%bool then None
  else
    let top := Z.of_nat (hd 0%nat rows) in
    let bottom := Z.of_nat (last rows 0%nat) in
    let left := Z.of_nat (hd 0%nat cols) in
    let right := Z.of_nat (last cols 0%nat) in
    let top := Z.max (top - padding) 0 in
    let bottom := Z.min (bottom + padding) (Z.of_nat (f_h img_array)) in
    let left := Z.max (left - padding) 0 in
    let right := Z.min (right + padding) (Z.of_nat (f_w img_array)) in
    Some (left, top, right, bottom).

(** Test images. *)

Definition uniform_image (h w : nat) (v : Z) : ndarray :=
  Arr2 h w (repeat (repeat v w) h).

Fixpoint zrange_from (start : Z) (n : nat) : list Z :=
  match n with
  | O => []
  | S n' => start :: zrange_from (start + 1) n'
  end.

Definition zrange (n : nat) : list Z := zrange_from 0 n.

(** White page of [h] rows and [w] columns with black samples in rows
    [t..b] and columns [l..r] (inclusive). *)
Definition block_image (h w : nat) (l t r b : Z) : ndarray :=
  Arr2 h w
    (map (fun i =>
            map (fun j =>
                   if ((t <=? i) && (i <=? b) && (l <=? j) && (j <=? r))%bool
                   then 0 else 255)
                (zrange w))
         (zrange h)).


Definition height (a : ndarray) : nat :=
  match a with Arr2 h _ _ => h | Arr3 h _ _ _ => h end.

Definition width (a : ndarray) : nat :=
  match a with Arr2 _ w _ => w | Arr3 _ w _ _ => w end.

(** Every pixel of the image has luminance [v]. *)
Definition uniform (a : ndarray) (v : Q) : Prop :=
  Forall (Forall (fun x => x == v)%Q) (f_px (to_gray a)).

(** [t] and [b] are the first and the last index flagged in [flags]. *)
Definition content_span (flags : list bool) (t b : nat) : Prop :=
  nth t flags false = true /\ nth b flags false = true /\
  forall i, nth i flags false = true -> (t <= i <= b)%nat.

(** The rectangle invariant of the data model. *)
Definition rect_within (r : rect) (w h : nat) : Prop :=
  let '(l, t, r', b) := r in
  0 <= l < r' /\ r' <= Z.of_nat w /\ 0 <= t < b /\ b <= Z.of_nat h.

(** ** Python built-ins used by [process_folder] *)

Module Py.

Local Open Scope char_scope.

(** [str.lower] on one character ([A]-[Z] are the only characters whose
    lower-case form can occur in [".png"] or ["q"]). *)
Definition lower_char (c : ascii) : ascii :=
  let n := nat_of_ascii c in
  if ((65 <=? n) && (n <=? 90))%nat%bool then ascii_of_nat (n + 32) else c.

Local Open Scope string_scope.

Fixpoint lower (s : string) : string :=
  match s with
  | EmptyString => EmptyString
  | String c s' => String (lower_char c) (lower s')
  end.

(** [s.endswith(suffix)]. *)
Definition endswith (s suffix : string) : bool :=
  let n := String.length s in
  let m := String.length suffix in
  ((m <=? n)%nat && (substring (n - m) m s =? suffix))%bool.

(** [l[i]] for a Python [int] index: negative indices count from the end,
    [None] stands for [IndexError]. *)
Definition getitem {A : Type} (l : list A) (i : Z) : option A :=
  let n := Z.of_nat (List.length l) in
  if (0 <=? i)%Z then nth_error l (Z.to_nat i)
  else if (0 <=? n + i)%Z then nth_error l (Z.to_nat (n + i))
  else None.

(** [l[:k]]. *)
Definition slice_to {A : Type} (l : list A) (k : Z) : list A :=
  let n := Z.of_nat (List.length l) in
  if (0 <=? k)%Z then firstn (Z.to_nat k) l
  else firstn (Z.to_nat (n + k)) l.

(** [enumerate(l, 1)]. *)
Definition enumerate1 {A : Type} (l : list A) : list (nat * A) :=
  combine (seq 1 (List.length l)) l.

(** The total order [sorted] uses on [str]. *)
Module StringOrder <: Orders.TotalLeBool.
Definition t := string.
Definition leb := String.leb.
Definition leb_total :
  forall s1 s2, leb s1 s2 = true \/ leb s2 s1 = true := String.leb_total.
End StringOrder.

Module StringSort := Sort StringOrder.

Definition sorted (l : list string) : list string := StringSort.sort l.

End Py.

(** ** Pillow images and the file system *)

Definition image : Type := ndarray.

(** [os.path.join(folder, name)]. *)
Definition path : Type := (string * string)%type.

Definition path_eqb (p q : path) : bool :=
  ((fst p =? fst q)%string && (snd p =? snd q)%string)%bool.

Inductive exn : Type :=
| IndexError
| FileNotFoundError
| UnidentifiedImageError
| ValueError
| PermissionError
| EOFError.

(** Sample of a 2-D grid at row [y], column [x]; zero outside the grid. *)
Definition sample_at (px : list (list Z)) (y x : Z) : Z :=
  if ((y <? 0) || (x <? 0))%bool then 0
  else nth (Z.to_nat x) (nth (Z.to_nat y) px []) 0.

(** Pixel of a 3-D grid with [c] channels; all zero outside the grid. *)
Definition pixel_at (c : nat) (px : list (list (list Z))) (y x : Z) : list Z :=
  if ((y <? 0) || (x <? 0))%bool then repeat 0 c
  else nth (Z.to_nat x) (nth (Z.to_nat y) px []) (repeat 0 c).

(** Pillow's [Image.crop(box)]: the result has size
    [(right - left, bottom - top)]; the part of the box outside the image is
    filled with zeros; a box with [right < left] or [bottom < top] raises
    [ValueError]. *)
Definition crop (im : image) (box : rect) : exn + image :=
  let '(l, t, r, b) := box in
  if r <? l then inl ValueError
  else if b <? t then inl ValueError
  else
    let ys := zrange_from t (Z.to_nat (b - t)) in
    let xs := zrange_from l (Z.to_nat (r - l)) in
    inr match im with
        | Arr2 _ _ px =>
            Arr2 (Z.to_nat (b - t)) (Z.to_nat (r - l))
                 (map (fun y => map (fun x => sample_at px y x) xs) ys)
        | Arr3 _ _ c px =>
            Arr3 (Z.to_nat (b - t)) (Z.to_nat (r - l)) c
                 (map (fun y => map (fun x => pixel_at c px y x) xs) ys)
        end.

(** The rectangle cut down to an image of [w] columns and [h] rows. *)
Definition clamp_rect (box : rect) (w h : nat) : rect :=
  let '(l, t, r, b) := box in
  (Z.max l 0, Z.max t 0, Z.min r (Z.of_nat w), Z.min b (Z.of_nat h)).

Inductive file : Type :=
| FPng (im : image)
| FPdf (pages : list image)
| FOther.

(** The messages of the [print] calls, by source line. *)
Inductive msg : Type :=
| MsgNoPng                                           (* line 64 *)
| MsgManualBounds (bounds : rect)                    (* line 72 *)
| MsgNoBounds                                        (* line 76 *)
| MsgDetected (bounds : rect)                        (* line 82 *)
| MsgPressEnter                                      (* line 83 *)
| MsgInputFile (p : path)                            (* line 84 *)
| MsgAborted                                         (* line 87 *)
| MsgLimiting (limit : Z)                            (* line 92 *)
| MsgProcessing (total_files : nat)                  (* line 96 *)
| MsgOk (i total_files : nat) (filename : string)    (* line 110 *)
| MsgErr (i total_files : nat) (filename : string) (e : exn)  (* line 116 *)
| MsgCombined.                                       (* line 122 *)

(** The calls that reach outside the process, in the order they are made. *)
Inductive event : Type :=
| EvMkdir (d : string)
| EvListdir (d : string)
| EvOpen (p : path)
| EvShow (im : image)
| EvInput
| EvSave (p : path)
| EvPrint (m : msg).

(** The state [process_folder] runs in.
    - [dirs]: the directories that exist;
    - [denied]: directories the process is not allowed to create;
    - [files]: the files, in the order [os.listdir] reports them;
    - [locked]: paths the process cannot write;
    - [stdin]: the lines the operator will type;
    - [log]: the calls made so far, oldest first. *)
Record world : Type := World {
  dirs : list string;
  denied : list string;
  files : list (path * file);
  locked : list path;
  stdin : list string;
  log : list event
}.

Definition emit (e : event) (w : world) : world :=
  World (dirs w) (denied w) (files w) (locked w) (stdin w) (log w ++ [e]).

Definition set_dirs (ds : list string) (w : world) : world :=
  World ds (denied w) (files w) (locked w) (stdin w) (log w).

Definition set_files (fs : list (path * file)) (w : world) : world :=
  World (dirs w) (denied w) fs (locked w) (stdin w) (log w).

Definition set_stdin (ls : list string) (w : world) : world :=
  World (dirs w) (denied w) (files w) (locked w) ls (log w).

Definition mem_string (s : string) (l : list string) : bool :=
  existsb (String.eqb s) l.

Definition mem_path (p : path) (l : list path) : bool :=
  existsb (path_eqb p) l.

Fixpoint find_file (p : path) (fs : list (path * file)) : option file :=
  match fs with
  | [] => None
  | (q, f) :: fs' => if path_eqb p q then Some f else find_file p fs'
  end.

(** Overwrite the file at [p], or create it after the existing entries. *)
Fixpoint write_file (p : path) (f : file) (fs : list (path * file))
  : list (path * file) :=
  match fs with
  | [] => [(p, f)]
  | (q, g) :: fs' =>
      if path_eqb p q then (q, f) :: fs' else (q, g) :: write_file p f fs'
  end.

(** The names of the entries of folder [d]. *)
Definition entries (d : string) (fs : list (path * file)) : list string :=
  map (fun e => snd (fst e)) (filter (fun e => (fst (fst e) =? d)%string) fs).

(** ** A state and exception monad *)

Inductive result (A : Type) : Type :=
| Ret (a : A)
| Raise (e : exn).

Arguments Ret {A} a.
Arguments Raise {A} e.

Definition M (A : Type) : Type := world -> result A * world.

Definition ret {A : Type} (a : A) : M A := fun w => (Ret a, w).

Definition raise {A : Type} (e : exn) : M A := fun w => (Raise e, w).

Definition bind {A B : Type} (m : M A) (k : A -> M B) : M B :=
  fun w =>
    match m w with
    | (Ret a, w') => k a w'
    | (Raise e, w') => (Raise e, w')
    end.

(** [try: body / except Exception as e: handler(e)]. *)
Definition catch {A : Type} (body : M A) (handler : exn -> M A) : M A :=
  fun w =>
    match body w with
    | (Ret a, w') => (Ret a, w')
    | (Raise e, w') => handler e w'
    end.

Declare Scope py_scope.
Delimit Scope py_scope with py.

Notation "x <- m ;; k" := (bind m (fun x => k))
  (at level 100, m at next level, right associativity) : py_scope.
Notation "m ;; k" := (bind m (fun _ => k))
  (at level 100, right associativity) : py_scope.

Local Open Scope py_scope.

(** ** The calls on the environment *)

Definition print (m : msg) : M unit :=
  fun w => (Ret tt, emit (EvPrint m) w).

(** [Path(d).mkdir(parents=True, exist_ok=True)]. *)
Definition mkdir (d : string) : M unit :=
  fun w =>
    let w := emit (EvMkdir d) w in
    if mem_string d (dirs w) then (Ret tt, w)
    else if mem_string d (denied w) then (Raise PermissionError, w)
    else (Ret tt, set_dirs (dirs w ++ [d]) w).

(** [os.listdir(d)]. *)
Definition listdir (d : string) : M (list string) :=
  fun w =>
    let w := emit (EvListdir d) w in
    if mem_string d (dirs w) then (Ret (entries d (files w)), w)
    else (Raise FileNotFoundError, w).

(** [Image.open(p)]. *)
Definition image_open (p : path) : M image :=
  fun w =>
    let w := emit (EvOpen p) w in
    match find_file p (files w) with
    | Some (FPng im) => (Ret im, w)
    | Some _ => (Raise UnidentifiedImageError, w)
    | None => (Raise FileNotFoundError, w)
    end.

(** [im.crop(box)]. *)
Definition image_crop (im : image) (box : rect) : M image :=
  match crop im box with
  | inr c => ret c
  | inl e => raise e
  end.

(** [im.save(p, ...)]: the file is written whole or not at all. *)
Definition image_save (p : path) (f : file) : M unit :=
  fun w =>
    let w := emit (EvSave p) w in
    if mem_path p (locked w) then (Raise PermissionError, w)
    else (Ret tt, set_files (write_file p f (files w)) w).

(** [im.show()]. *)
Definition image_show (im : image) : M unit :=
  fun w => (Ret tt, emit (EvShow im) w).

(** [input()]. *)
Definition input : M string :=
  fun w =>
    let w := emit EvInput w in
    match stdin w with
    | [] => (Raise EOFError, w)
    | line :: rest => (Ret line, set_stdin rest w)
    end.

(** ** Batch Cropper *)

Section ProcessFolder.

Variables input_folder output_folder : string.
Variable manual_bounds : option rect.
Variable verify_idx : option Z.
Variable output_pdf : bool.
Variable limit : option Z.

(** [verify_idx or 0]. *)
Definition verify_idx_or_0 : Z :=
  match verify_idx with Some i => i | None => 0 end.

(** [if limit:] *)
Definition limit_truthy : option Z :=
  match limit with
  | Some k => if k =? 0 then None else Some k
  | None => None
  end.

Definition is_png (f : string) : bool := Py.endswith (Py.lower f) ".png".

(** Lines 70-77: the rectangle of the run, [None] after the message of
    line 76. *)
Definition determine_bounds (first_image : image) : M (option rect) :=
  match manual_bounds with
  | Some bounds => print (MsgManualBounds bounds) ;; ret (Some bounds)
  | None =>
      match find_content_bounds first_image with
      | Some bounds => ret (Some bounds)
      | None => print MsgNoBounds ;; ret None
      end
  end.

(** Lines 79-88: the verification gate; [false] when the operator typed
    [q]. *)
Definition verify (first_image : image) (first_image_path : path)
  (bounds : rect) : M bool :=
  match verify_idx with
  | Some _ =>
      cropped_image <- image_crop first_image bounds ;;
      image_show cropped_image ;;
      print (MsgDetected bounds) ;;
      print MsgPressEnter ;;
      print (MsgInputFile first_image_path) ;;
      user_input <- input ;;
      if (Py.lower user_input =? "q")%string
      then print MsgAborted ;; ret false
      else ret true
  | None => ret true
  end.

(** Lines 91-93. *)
Definition apply_limit (png_files : list string) : M (list string) :=
  match limit_truthy with
  | Some k => print (MsgLimiting k) ;; ret (Py.slice_to png_files k)
  | None => ret png_files
  end.

(** Lines 60-93.  [None] is one of the early [return]s of lines 65, 77
    and 88; otherwise the rectangle and the batch the loop runs on. *)
Definition prepare : M (option (rect * list string)) :=
  mkdir output_folder ;;
  names <- listdir input_folder ;;
  let png_files := Py.sorted (filter is_png names) in
  match png_files with
  | [] => print MsgNoPng ;; ret None
  | _ :: _ =>
      match Py.getitem png_files verify_idx_or_0 with
      | None => raise IndexError
      | Some name =>
          let first_image_path := (input_folder, name) in
          first_image <- image_open first_image_path ;;
          found <- determine_bounds first_image ;;
          match found with
          | None => ret None
          | Some bounds =>
              go <- verify first_image first_image_path bounds ;;
              if go : bool then
                png_files <- apply_limit png_files ;;
                ret (Some (bounds, png_files))
              else ret None
          end
      end
  end.

Definition input_path (filename : string) : path :=
  (input_folder, filename).

Definition output_path (filename : string) : path :=
  (output_folder, ("cropped_" ++ filename)%string).

(** Lines 105-109: open, crop and save one file. *)
Definition crop_body (bounds : rect) (filename : string) : M image :=
  im <- image_open (input_path filename) ;;
  cropped <- image_crop im bounds ;;
  image_save (output_path filename) (FPng cropped) ;;
  ret cropped.

(** Lines 101-116: one iteration of the loop. *)
Definition crop_item (bounds : rect) (total_files : nat)
  (i : nat) (filename : string) (images : list image) : M (list image) :=
  catch
    (cropped <- crop_body bounds filename ;;
     print (MsgOk i total_files filename) ;;
     ret (if output_pdf then images ++ [cropped] else images))
    (fun e => print (MsgErr i total_files filename e) ;; ret images).

(** Lines 100-116. *)
Fixpoint crop_loop (bounds : rect) (total_files : nat)
  (items : list (nat * string)) (images : list image) : M (list image) :=
  match items with
  | [] => ret images
  | (i, filename) :: items' =>
      images' <- crop_item bounds total_files i filename images ;;
      crop_loop bounds total_files items' images'
  end.

Definition pdf_filepath : path := (output_folder, "all-cropped.pdf"%string).

(** Lines 119-122; [images.pop(0)] raises [IndexError] on an empty list. *)
Definition assemble (images : list image) : M unit :=
  match images with
  | [] => raise IndexError
  | pdf_file :: images' =>
      image_save pdf_filepath (FPdf (pdf_file :: images')) ;;
      print MsgCombined
  end.

(** Lines 95-122. *)
Definition run_batch (bounds : rect) (png_files : list string) : M unit :=
  let total_files := List.length png_files in
  print (MsgProcessing total_files) ;;
  images <- crop_loop bounds total_files (Py.enumerate1 png_files) [] ;;
  if output_pdf then assemble images else ret tt.

(** [process_folder] (lines 51-122). *)
Definition process_folder : M unit :=
  r <- prepare ;;
  match r with
  | None => ret tt
  | Some (bounds, png_files) => run_batch bounds png_files
  end.

(** *** Observations on a run of the loop *)

(** What lines 105-109 do for [filename] when started in [w]: the
    exception raised, or the cropped image saved. *)
Definition item_outcome (bounds : rect) (filename : string) (w : world)
  : exn + image :=
  match fst (crop_body bounds filename w) with
  | Ret cropped => inr cropped
  | Raise e => inl e
  end.

(** The outcome of every item of the loop, each taken in the world its
    iteration starts in. *)
(** The world one iteration leaves behind. *)
Definition item_world (bounds : rect) (total_files : nat)
  (i : nat) (filename : string) (w : world) : world :=
  snd (crop_item bounds total_files i filename [] w).

(** The world the loop leaves behind. *)
Fixpoint loop_world (bounds : rect) (total_files : nat)
  (items : list (nat * string)) (w : world) : world :=
  match items with
  | [] => w
  | (i, filename) :: items' =>
      loop_world bounds total_files items'
        (item_world bounds total_files i filename w)
  end.

(** The outcome of every item of the loop, each taken in the world its
    iteration starts in. *)
Fixpoint loop_outcomes (bounds : rect) (total_files : nat)
  (items : list (nat * string)) (w : world) : list (exn + image) :=
  match items with
  | [] => []
  | (i, filename) :: items' =>
      item_outcome bounds filename w ::
      loop_outcomes bounds total_files items'
        (item_world bounds total_files i filename w)
  end.

End ProcessFolder.

(** The message the loop prints for an item with the given outcome. *)
Definition report (total_files : nat) (item : nat * string)
  (o : exn + image) : msg :=
  match o with
  | inr _ => MsgOk (fst item) total_files (snd item)
  | inl e => MsgErr (fst item) total_files (snd item) e
  end.

Fixpoint reports (total_files : nat) (items : list (nat * string))
  (os : list (exn + image)) : list msg :=
  match items, os with
  | item :: items', o :: os' =>
      report total_files item o :: reports total_files items' os'
  | _, _ => []
  end.



(** The images of the items that succeeded, in the order of the items. *)
Fixpoint successes (os : list (exn + image)) : list image :=
  match os with
  | [] => []
  | inr c :: os' => c :: successes os'
  | inl _ :: os' => successes os'
  end.

(** The messages printed, in order. *)
Fixpoint printed (l : list event) : list msg :=
  match l with
  | [] => []
  | EvPrint m :: l' => m :: printed l'
  | _ :: l' => printed l'
  end.

(** The paths handed to [Image.open], in order. *)
Fixpoint opened (l : list event) : list path :=
  match l with
  | [] => []
  | EvOpen p :: l' => p :: opened l'
  | _ :: l' => opened l'
  end.

Definition is_item_msg (m : msg) : bool :=
  match m with
  | MsgOk _ _ _ | MsgErr _ _ _ _ => true
  | _ => false
  end.

(** The messages printed after the last per-item message (all of them when
    there is none). *)
Fixpoint after_last_item (ms : list msg) : list msg :=
  match ms with
  | [] => []
  | m :: ms' =>
      if existsb is_item_msg ms then
        (if existsb is_item_msg ms' then after_last_item ms' else ms')
      else ms
  end.


(** The parts of the environment the loop cannot change. *)
Definition frame (w w' : world) : Prop :=
  dirs w' = dirs w /\ denied w' = denied w /\
  locked w' = locked w /\ stdin w' = stdin w.

(** ** Sample folders *)

Definition page_a : image := Arr2 2 2 [[1; 2]; [3; 4]].
Definition page_c : image := Arr2 2 2 [[5; 6]; [7; 8]].

(** A folder [in] listed as [b.png], [a.png], [c.png]; [b.png] is not an
    image. *)
Definition world_bac : world :=
  World ["in"%string] []
        [(("in", "b.png")%string, FOther);
         (("in", "a.png")%string, FPng page_a);
         (("in", "c.png")%string, FPng page_c)]
        [] [] [].

(** A folder [in] with one page whose cropped copy cannot be written. *)
Definition world_locked : world :=
  World ["in"%string] [] [(("in", "a.png")%string, FPng page_a)]
        [("out", "cropped_a.png")%string] [] [].

(** A folder [in] without PNG files. *)
Definition world_no_png : world :=
  World ["in"%string] [] [(("in", "notes.txt")%string, FOther)] [] [] [].

(** [w'] is a later state of [w]: no directory has disappeared and the log
    has only grown. *)
Definition grows (w w' : world) : Prop :=
  (forall d, mem_string d (dirs w) = true -> mem_string d (dirs w') = true) /\
  exists delta, log w' = log w ++ delta.

(** A computation that only leads to later states. *)
Definition monotone {A : Type} (m : M A) : Prop :=
  forall w, grows w (snd (m w)).

(** The same files and the same locks. *)
Definition same_disk (w w' : world) : Prop :=
  files w' = files w /\ locked w' = locked w.

(** The multi-channel image whose [c] channels all equal the samples of a
    single-channel grid (a gray page saved as RGB, for [c = 3]). *)
Definition replicate_channels (c : nat) (px : list (list Z))
  : list (list (list Z)) :=
  map (map (fun v => repeat v c)) px.

(** A computation that keeps the relation [R] between the state it starts
    in and the state it leaves. *)
Definition preserves {A : Type} (R : world -> world -> Prop) (m : M A)
  : Prop :=
  forall w, R w (snd (m w)).

(** The calls that involve the operator. *)
Definition is_interactive (e : event) : bool :=
  match e with
  | EvShow _ | EvInput => true
  | _ => false
  end.


(** The operator was not involved between the two states. *)
Definition unattended (w w' : world) : Prop :=
  stdin w' = stdin w /\
  exists delta, log w' = log w ++ delta /\ existsb is_interactive delta = false.

(** A folder [in] with one page, and an operator who types [Q]. *)
Definition world_quit : world :=
  World ["in"%string] [] [(("in", "a.png")%string, FPng page_a)] []
        ["Q"%string] [].

(** [v] reads from folder [d] what [w] reads, under the same locks. *)
Definition reads_agree (d : string) (w v : world) : Prop :=
  (forall g, find_file (input_path d g) (files v)
             = find_file (input_path d g) (files w)) /\
  locked v = locked w.

(** ** Facts about the array operations *)

Section WhereFacts.

Lemma where_from_In flags : forall k i,
  In i (where_from k flags) <->
  (k <= i)%nat /\ nth (i - k) flags false = true.
Proof.
  induction flags as [|b fl IH]; intros k i; simpl.
  - split; [tauto|]. intros [_ H]. destruct (i - k)%nat; discriminate.
  - destruct b; simpl; rewrite ?IH.
    + split.
      * intros [->|[Hle Hn]].
        -- rewrite Nat.sub_diag. split; [lia|reflexivity].
        -- split; [lia|]. destruct (i - k)%nat as [|m] eqn:E; [lia|].
           replace m with (i - S k)%nat by lia. exact Hn.
      * intros [Hle Hn]. destruct (i - k)%nat as [|m] eqn:E.
        -- left; lia.
        -- right. split; [lia|]. replace (i - S k)%nat with m by lia. exact Hn.
    + split.
      * intros [Hle Hn]. split; [lia|].
        destruct (i - k)%nat as [|m] eqn:E; [lia|].
        replace m with (i - S k)%nat by lia. exact Hn.
      * intros [Hle Hn]. destruct (i - k)%nat as [|m] eqn:E; [discriminate|].
        split; [lia|]. replace (i - S k)%nat with m by lia. exact Hn.
Qed.

Lemma where_from_lt flags : forall k i,
  In i (where_from k flags) -> (i < k + length flags)%nat.
Proof.
  intros k i H. apply where_from_In in H. destruct H as [Hle Hn].
  destruct (Nat.lt_ge_cases (i - k) (length flags)) as [Hlt|Hge]; [lia|].
  rewrite nth_overflow in Hn by exact Hge. discriminate.
Qed.

Lemma where_from_sorted flags : forall k,
  StronglySorted lt (where_from k flags).
Proof.
  induction flags as [|b fl IH]; intros k; simpl; [constructor|].
  destruct b; [|apply IH].
  constructor; [apply IH|].
  apply Forall_forall. intros x Hx. apply where_from_In in Hx. lia.
Qed.

Lemma sorted_hd_le (l : list nat) :
  StronglySorted lt l -> forall x, In x l -> (hd 0%nat l <= x)%nat.
Proof.
  intros Hs x Hx. destruct l as [|a l]; [contradiction|]. simpl.
  apply StronglySorted_inv in Hs as [_ Hall].
  destruct Hx as [->|Hx]; [lia|].
  rewrite Forall_forall in Hall. specialize (Hall x Hx). lia.
Qed.

Lemma sorted_le_last (l : list nat) :
  StronglySorted lt l -> forall x, In x l -> (x <= last l 0%nat)%nat.
Proof.
  induction l as [|a l IH]; intros Hs x Hx; [contradiction|].
  apply StronglySorted_inv in Hs as [Hs' Hall].
  destruct l as [|c l].
  - destruct Hx as [->|[]]. simpl. lia.
  - change (last (a :: c :: l) 0%nat) with (last (c :: l) 0%nat).
    destruct Hx as [<-|Hx].
    + rewrite Forall_forall in Hall.
      assert (a < c)%nat by (apply Hall; left; reflexivity).
      specialize (IH Hs' c (or_introl eq_refl)). lia.
    + apply IH; assumption.
Qed.

Lemma hd_In (l : list nat) : l <> [] -> In (hd 0%nat l) l.
Proof. destruct l; [congruence|]. intros _. left. reflexivity. Qed.

Lemma last_In (l : list nat) : l <> [] -> In (last l 0%nat) l.
Proof.
  induction l as [|a l IH]; [congruence|]. intros _.
  destruct l as [|c l]; [left; reflexivity|].
  right. apply IH. discriminate.
Qed.

Lemma np_where_In flags i :
  In i (np_where flags) <-> nth i flags false = true.
Proof.
  unfold np_where. rewrite where_from_In, Nat.sub_0_r.
  split; [tauto|]. intros H. split; [lia|exact H].
Qed.

Lemma np_where_span flags t b :
  content_span flags t b ->
  np_where flags <> [] /\
  hd 0%nat (np_where flags) = t /\ last (np_where flags) 0%nat = b.
Proof.
  intros (Ht & Hb & Hall).
  assert (Hne : np_where flags <> []).
  { intros E. apply np_where_In in Ht. rewrite E in Ht. contradiction. }
  pose proof (where_from_sorted flags 0) as Hs. fold (np_where flags) in Hs.
  split; [exact Hne|]. split.
  - pose proof (hd_In Hne) as Hin. apply np_where_In in Hin.
    apply Hall in Hin.
    pose proof (sorted_hd_le Hs t (proj2 (np_where_In flags t) Ht)). lia.
  - pose proof (last_In Hne) as Hin. apply np_where_In in Hin.
    apply Hall in Hin.
    pose proof (sorted_le_last Hs b (proj2 (np_where_In flags b) Hb)). lia.
Qed.

(** Whenever some index is flagged, first and last are ordered and within
    the flag vector. *)
Lemma np_where_range flags :
  np_where flags <> [] ->
  (hd 0%nat (np_where flags) <= last (np_where flags) 0%nat
   < length flags)%nat.
Proof.
  intros Hne.
  pose proof (where_from_sorted flags 0) as Hs. fold (np_where flags) in Hs.
  split.
  - apply sorted_hd_le; [exact Hs|apply last_In; exact Hne].
  - pose proof (last_In Hne) as Hin. unfold np_where in Hin at 2.
    apply where_from_lt in Hin. exact Hin.
Qed.

Lemma where_from_all_false flags k :
  Forall (fun b => b = false) flags -> where_from k flags = [].
Proof.
  intros H. revert k. induction H as [|b fl Hb _ IH]; intros k; simpl.
  - reflexivity.
  - rewrite Hb. apply IH.
Qed.

Lemma nth_all_true flags i :
  Forall (fun b => b = true) flags -> (i < length flags)%nat ->
  nth i flags false = true.
Proof.
  intros H. revert i. induction H as [|b fl Hb _ IH]; intros i Hi; simpl in *.
  - lia.
  - destruct i; [exact Hb|]. apply IH. lia.
Qed.

Lemma all_true_span flags :
  Forall (fun b => b = true) flags -> (0 < length flags)%nat ->
  content_span flags 0 (length flags - 1).
Proof.
  intros H Hlen. repeat split.
  - apply nth_all_true; assumption.
  - apply nth_all_true; [assumption|lia].
  - lia.
  - destruct (Nat.lt_ge_cases i (length flags)) as [Hlt|Hge]; [lia|].
    rewrite nth_overflow in H0 by exact Hge. discriminate.
Qed.

End WhereFacts.

Section ArrayFacts.

Lemma Qsum_const (v : Q) (xs : list Q) :
  Forall (fun x => x == v)%Q xs ->
  (Qsum xs == v * inject_Z (Z.of_nat (length xs)))%Q.
Proof.
  induction 1 as [|x xs Hx _ IH].
  - simpl. ring.
  - change (Qsum (x :: xs)) with (x + Qsum xs)%Q.
    transitivity (v + v * inject_Z (Z.of_nat (length xs)))%Q;
      [apply Qplus_comp; assumption|].
    simpl length. rewrite Nat2Z.inj_succ.
    unfold Z.succ. rewrite inject_Z_plus. ring.
Qed.

Lemma np_mean_const (v : Q) (xs : list Q) :
  Forall (fun x => x == v)%Q xs -> xs <> [] ->
  exists q, np_mean xs = Some q /\ (q == v)%Q.
Proof.
  intros Hall Hne. destruct xs as [|x xs]; [congruence|].
  eexists. split; [reflexivity|].
  rewrite (Qsum_const Hall). apply Qdiv_mult_l.
  intros E. unfold Qeq, inject_Z in E. simpl in E. lia.
Qed.

Lemma Qltb_true (x y : Q) : Qltb x y = true <-> (x < y)%Q.
Proof.
  unfold Qltb. rewrite negb_true_iff.
  destruct (Qle_bool y x) eqn:E.
  - apply Qle_bool_iff in E. split; [discriminate|].
    intros H. exfalso. exact (Qlt_not_le _ _ H E).
  - split; [|reflexivity]. intros _. apply Qnot_le_lt.
    intros H. apply Qle_bool_iff in H. congruence.
Qed.

Lemma Qltb_false (x y : Q) : Qltb x y = false <-> (y <= x)%Q.
Proof.
  unfold Qltb. rewrite negb_false_iff. apply Qle_bool_iff.
Qed.

Lemma lt_float_const_false (v : Q) (xs : list Q) :
  Forall (fun x => x == v)%Q xs -> (threshold <= v)%Q ->
  lt_float (np_mean xs) threshold = false.
Proof.
  intros Hall Hv. destruct xs as [|x xs]; [reflexivity|].
  destruct (np_mean_const Hall) as (q & -> & Hq); [discriminate|].
  simpl. apply Qltb_false. rewrite Hq. exact Hv.
Qed.

Lemma lt_float_const_true (v : Q) (xs : list Q) :
  Forall (fun x => x == v)%Q xs -> xs <> [] -> (v < threshold)%Q ->
  lt_float (np_mean xs) threshold = true.
Proof.
  intros Hall Hne Hv.
  destruct (np_mean_const Hall Hne) as (q & -> & Hq).
  simpl. apply Qltb_true. rewrite Hq. exact Hv.
Qed.

Lemma zip_cons_length (r : list Q) : forall cols,
  length (zip_cons r cols) = Nat.min (length r) (length cols).
Proof.
  induction r as [|x r IH]; intros [|c cols]; simpl; try reflexivity.
  rewrite IH. reflexivity.
Qed.

Lemma columns_length (w : nat) (px : list (list Q)) :
  Forall (fun r => length r = w) px -> length (columns w px) = w.
Proof.
  unfold columns. induction 1 as [|r px Hr _ IH]; simpl.
  - apply repeat_length.
  - rewrite zip_cons_length, IH, Hr. apply Nat.min_id.
Qed.

Lemma zip_cons_Forall (P : Q -> Prop) (n : nat) (r : list Q) :
  Forall P r -> forall cols,
  Forall (fun c => Forall P c /\ length c = n) cols ->
  Forall (fun c => Forall P c /\ length c = S n) (zip_cons r cols).
Proof.
  induction 1 as [|x r Hx _ IH]; intros cols Hc; [constructor|].
  destruct Hc as [|c cols [Hc Hl] Hcs]; simpl; constructor.
  - split; [constructor; assumption|simpl; congruence].
  - apply IH. exact Hcs.
Qed.

(** The columns of a grid hold the samples of the grid, and each is as
    long as the grid is high. *)
Lemma columns_Forall (P : Q -> Prop) (w : nat) (px : list (list Q)) :
  Forall (Forall P) px ->
  Forall (fun c => Forall P c /\ length c = length px) (columns w px).
Proof.
  unfold columns. induction 1 as [|r px Hr _ IH]; simpl.
  - apply Forall_forall. intros c Hc. apply repeat_spec in Hc. subst c.
    split; [constructor|reflexivity].
  - apply zip_cons_Forall; assumption.
Qed.

Lemma to_gray_shape (a : ndarray) :
  f_h (to_gray a) = height a /\ f_w (to_gray a) = width a.
Proof. destruct a; split; reflexivity. Qed.

Lemma to_gray_wf (a : ndarray) : wf_ndarray a -> wf_farray2 (to_gray a).
Proof.
  destruct a as [h w px|h w c px]; simpl; unfold wf_farray2; simpl.
  - intros [Hh Hw]. split; [rewrite length_map; exact Hh|].
    apply Forall_map. eapply Forall_impl; [|exact Hw].
    intros r Hr. simpl in Hr. rewrite length_map. exact Hr.
  - intros (Hh & _ & Hw). split; [rewrite length_map; exact Hh|].
    apply Forall_map. eapply Forall_impl; [|exact Hw].
    intros r [Hr _]. rewrite length_map. exact Hr.
Qed.

Lemma row_flags_length (g : farray2) :
  wf_farray2 g -> length (row_flags g) = f_h g.
Proof.
  intros [Hh _]. unfold row_flags, mean_axis1.
  rewrite !length_map. exact Hh.
Qed.

Lemma col_flags_length (g : farray2) :
  wf_farray2 g -> length (col_flags g) = f_w g.
Proof.
  intros [_ Hw]. unfold col_flags, mean_axis0.
  rewrite !length_map. apply columns_length. exact Hw.
Qed.

End ArrayFacts.

(** ** Bounds Detector: properties *)

(** The rectangle [find_content_bounds] computes from the first and last
    flagged row and column. *)
Lemma find_content_bounds_of_span (a : ndarray) (l t r b : nat) :
  content_span (row_flags (to_gray a)) t b ->
  content_span (col_flags (to_gray a)) l r ->
  find_content_bounds a =
  Some (clamp_rect (Z.of_nat l - padding, Z.of_nat t - padding,
                    Z.of_nat r + padding, Z.of_nat b + padding)
                   (width a) (height a)).
Proof.
  intros Hr Hc. unfold find_content_bounds.
  destruct (np_where_span Hr) as (Hrne & Hrh & Hrl).
  destruct (np_where_span Hc) as (Hcne & Hch & Hcl).
  destruct (to_gray_shape a) as [-> ->].
  rewrite Hrh, Hrl, Hch, Hcl.
  destruct (np_where (row_flags (to_gray a))) as [|x xs]; [congruence|].
  destruct (np_where (col_flags (to_gray a))) as [|y ys]; [congruence|].
  reflexivity.
Qed.

(** C7.  When the rows below the threshold span exactly [t..b] and the
    columns below the threshold span exactly [l..r], detection returns that
    rectangle grown by [padding] on every side and clamped to the image.  On
    the 1000x1500 page with content rows 200-1300 and columns 100-900 the
    result is (90, 190, 910, 1310). *)
Theorem find_content_bounds_padded :
  (forall (a : ndarray) (l t r b : nat),
     content_span (row_flags (to_gray a)) t b ->
     content_span (col_flags (to_gray a)) l r ->
     find_content_bounds a =
     Some (clamp_rect (Z.of_nat l - padding, Z.of_nat t - padding,
                       Z.of_nat r + padding, Z.of_nat b + padding)
                      (width a) (height a))) /\
  find_content_bounds (block_image 1500 1000 100 200 900 1300) =
  Some (90, 190, 910, 1310).
Proof.
  split.
  - intros a l t r b. apply find_content_bounds_of_span.
  - vm_cast_no_check (eq_refl (Some (90, 190, 910, 1310))).
Qed.

Lemma find_content_bounds_padded_witness :
  let a := block_image 6 5 1 2 3 4 in
  content_span (row_flags (to_gray a)) 2 4 /\
  content_span (col_flags (to_gray a)) 1 3 /\
  find_content_bounds a = Some (0, 0, 5, 6).
Proof.
  assert (Hr : content_span (row_flags (to_gray (block_image 6 5 1 2 3 4))) 2 4).
  { repeat split; try reflexivity;
      do 7 (destruct i as [|i]; try (simpl in H; discriminate); try lia). }
  assert (Hc : content_span (col_flags (to_gray (block_image 6 5 1 2 3 4))) 1 3).
  { repeat split; try reflexivity;
      do 6 (destruct i as [|i]; try (simpl in H; discriminate); try lia). }
  split; [exact Hr|]. split; [exact Hc|].
  exact (proj1 find_content_bounds_padded _ _ _ _ _ Hr Hc).
Defined.

(** C8.  A rectangle returned for a well-formed image satisfies
    0 <= left < right <= width and 0 <= top < bottom <= height. *)
Theorem find_content_bounds_within (a : ndarray) (r : rect) :
  wf_ndarray a ->
  find_content_bounds a = Some r ->
  rect_within r (width a) (height a).
Proof.
  intros Hwf. pose proof (to_gray_wf a Hwf) as Hg.
  pose proof (row_flags_length Hg) as Hrl.
  pose proof (col_flags_length Hg) as Hcl.
  destruct (to_gray_shape a) as [Eh Ew].
  unfold find_content_bounds.
  pose proof (@np_where_range (row_flags (to_gray a))) as Hrr.
  pose proof (@np_where_range (col_flags (to_gray a))) as Hcr.
  destruct (np_where (row_flags (to_gray a))) as [|x xs] eqn:Ex;
    [discriminate|].
  destruct (np_where (col_flags (to_gray a))) as [|y ys] eqn:Ey;
    [discriminate|].
  specialize (Hrr ltac:(discriminate)). specialize (Hcr ltac:(discriminate)).
  rewrite Hrl, Eh in Hrr. rewrite Hcl, Ew in Hcr.
  change ((length (x :: xs) =? 0)%nat || (length (y :: ys) =? 0)%nat)%bool
    with false.
  cbv iota. rewrite Eh, Ew. intros E. injection E as <-.
  unfold rect_within, padding. simpl in Hrr, Hcr. lia.
Qed.

Lemma find_content_bounds_within_witness :
  rect_within (2, 1, 30, 25) 40 30.
Proof.
  apply (@find_content_bounds_within (block_image 30 40 12 11 20 15)).
  - split; [reflexivity|]. repeat constructor.
  - vm_compute. reflexivity.
Defined.

Lemma uniform_row_flags_false (g : farray2) (v : Q) :
  Forall (Forall (fun x => x == v)%Q) (f_px g) -> (threshold <= v)%Q ->
  Forall (fun b => b = false) (row_flags g).
Proof.
  intros Hall Hv. unfold row_flags, mean_axis1.
  rewrite map_map. apply Forall_map.
  eapply Forall_impl; [|exact Hall].
  intros r Hr. apply lt_float_const_false with (v := v); assumption.
Qed.

Lemma uniform_row_flags_true (g : farray2) (v : Q) :
  wf_farray2 g -> (0 < f_w g)%nat ->
  Forall (Forall (fun x => x == v)%Q) (f_px g) -> (v < threshold)%Q ->
  Forall (fun b => b = true) (row_flags g).
Proof.
  intros [_ Hw] Hpos Hall Hv. unfold row_flags, mean_axis1.
  rewrite map_map. apply Forall_map.
  rewrite Forall_forall in *. intros r Hin.
  apply lt_float_const_true with (v := v); auto.
  specialize (Hw r Hin). simpl in Hw. destruct r; [simpl in Hw; lia|discriminate].
Qed.

Lemma uniform_col_flags_true (g : farray2) (v : Q) :
  wf_farray2 g -> (0 < f_h g)%nat ->
  Forall (Forall (fun x => x == v)%Q) (f_px g) -> (v < threshold)%Q ->
  Forall (fun b => b = true) (col_flags g).
Proof.
  intros [Hh _] Hpos Hall Hv. unfold col_flags, mean_axis0.
  rewrite map_map. apply Forall_map.
  pose proof (columns_Forall (f_w g) Hall) as Hc.
  eapply Forall_impl; [|exact Hc].
  intros c [Hcv Hcl]. apply lt_float_const_true with (v := v); auto.
  destruct c; [simpl in Hcl; lia|discriminate].
Qed.

(** C1 (as the code has it).  A uniform image at or above the threshold
    yields no rectangle.  A non-empty uniform image whose intensity lies
    strictly between 0 and the threshold is content in every row and
    column: the detector returns the rectangle of the whole image. *)
Theorem uniform_image_bounds (a : ndarray) (v : Q) :
  wf_ndarray a ->
  uniform a v ->
  ((threshold <= v)%Q -> find_content_bounds a = None) /\
  ((0 < v)%Q -> (v < threshold)%Q ->
   (0 < height a)%nat -> (0 < width a)%nat ->
   find_content_bounds a =
   Some (0, 0, Z.of_nat (width a), Z.of_nat (height a))).
Proof.
  intros Hwf Hu. pose proof (to_gray_wf a Hwf) as Hg.
  destruct (to_gray_shape a) as [Eh Ew]. split.
  - intros Hv. unfold find_content_bounds.
    pose proof (uniform_row_flags_false _ Hu Hv) as Hf.
    unfold np_where at 1. rewrite (where_from_all_false 0 Hf). reflexivity.
  - intros _ Hv Hh Hw.
    assert (Hr : content_span (row_flags (to_gray a)) 0 (height a - 1)).
    { rewrite <- Eh, <- (row_flags_length Hg). apply all_true_span.
      - apply uniform_row_flags_true with (v := v); auto. lia.
      - rewrite row_flags_length by exact Hg. lia. }
    assert (Hc : content_span (col_flags (to_gray a)) 0 (width a - 1)).
    { rewrite <- Ew, <- (col_flags_length Hg). apply all_true_span.
      - apply uniform_col_flags_true with (v := v); auto. lia.
      - rewrite col_flags_length by exact Hg. lia. }
    rewrite (find_content_bounds_of_span a Hr Hc).
    unfold clamp_rect, padding. repeat f_equal; lia.
Qed.

Lemma uniform_image_wf (h w : nat) (v : Z) : wf_ndarray (uniform_image h w v).
Proof.
  simpl. split; [apply repeat_length|].
  apply Forall_forall. intros r Hr. apply repeat_spec in Hr. subst r.
  apply repeat_length.
Qed.

Lemma uniform_image_uniform (h w : nat) (v : Z) :
  uniform (uniform_image h w v) (inject_Z v).
Proof.
  unfold uniform. simpl. apply Forall_map.
  apply Forall_forall. intros r Hr. apply repeat_spec in Hr. subst r.
  apply Forall_map. apply Forall_forall. intros x Hx.
  apply repeat_spec in Hx. subst x. reflexivity.
Qed.

Lemma uniform_image_bounds_witness :
  find_content_bounds (uniform_image 2 3 255) = None /\
  find_content_bounds (uniform_image 2 3 128) = Some (0, 0, 3, 2).
Proof.
  split.
  - apply (proj1 (uniform_image_bounds (uniform_image_wf 2 3 255)
                    (uniform_image_uniform 2 3 255))).
    unfold threshold, Qle. simpl. lia.
  - apply (proj2 (uniform_image_bounds (uniform_image_wf 2 3 128)
                    (uniform_image_uniform 2 3 128))).
    + reflexivity.
    + reflexivity.
    + simpl. lia.
    + simpl. lia.
Defined.

(** C1, counterexample: a uniform gray image (intensity 128, below the
    threshold) is not reported as having no content; the detector returns
    the rectangle of the whole image. *)
Lemma uniform_gray_is_detected :
  wf_ndarray (uniform_image 2 3 128) /\
  uniform (uniform_image 2 3 128) 128 /\
  find_content_bounds (uniform_image 2 3 128) = Some (0, 0, 3, 2).
Proof.
  split; [apply uniform_image_wf|].
  split; [apply (uniform_image_uniform 2 3 128)|].
  reflexivity.
Qed.

(** ** File system and log: basic facts *)

Lemma path_eqb_spec (p q : path) : reflect (p = q) (path_eqb p q).
Proof.
  destruct p as [d n], q as [d' n']. unfold path_eqb. simpl.
  destruct (String.eqb_spec d d') as [->|Hd];
    destruct (String.eqb_spec n n') as [->|Hn]; constructor; congruence.
Qed.

Lemma find_file_write (p q : path) (f : file) (fs : list (path * file)) :
  find_file p (write_file q f fs) =
  if path_eqb p q then Some f else find_file p fs.
Proof.
  induction fs as [|[q' g] fs IH]; simpl.
  - reflexivity.
  - destruct (path_eqb_spec q q') as [->|Hq]; simpl.
    + destruct (path_eqb_spec p q'); reflexivity.
    + rewrite IH.
      destruct (path_eqb_spec p q) as [->|Hp]; [|reflexivity].
      destruct (path_eqb_spec q q'); [contradiction|reflexivity].
Qed.

Lemma printed_app (l1 l2 : list event) :
  printed (l1 ++ l2) = printed l1 ++ printed l2.
Proof.
  induction l1 as [|e l1 IH]; simpl; [reflexivity|].
  destruct e; simpl; rewrite ?IH; reflexivity.
Qed.

Lemma opened_app (l1 l2 : list event) :
  opened (l1 ++ l2) = opened l1 ++ opened l2.
Proof.
  induction l1 as [|e l1 IH]; simpl; [reflexivity|].
  destruct e; simpl; rewrite ?IH; reflexivity.
Qed.

Lemma frame_refl (w : world) : frame w w.
Proof. repeat split. Qed.

Lemma frame_trans (w1 w2 w3 : world) :
  frame w1 w2 -> frame w2 w3 -> frame w1 w3.
Proof. unfold frame. intuition congruence. Qed.

Lemma frame_emit (e : event) (w : world) : frame w (emit e w).
Proof. repeat split. Qed.

(** ** The loop *)

Section LoopFacts.

Variables input_folder output_folder : string.
Variable output_pdf : bool.
Variable bounds : rect.

Local Abbreviation body := (crop_body input_folder output_folder bounds).
Local Abbreviation item :=
  (crop_item input_folder output_folder output_pdf bounds).
Local Abbreviation loop :=
  (crop_loop input_folder output_folder output_pdf bounds).
Local Abbreviation outcome :=
  (item_outcome input_folder output_folder bounds).
Local Abbreviation outcomes :=
  (loop_outcomes input_folder output_folder output_pdf bounds).
Local Abbreviation iworld :=
  (item_world input_folder output_folder output_pdf bounds).
Local Abbreviation lworld :=
  (loop_world input_folder output_folder output_pdf bounds).
Local Abbreviation ipath := (input_path input_folder).
Local Abbreviation opath := (output_path output_folder).

(** Lines 105-109, case by case. *)
Lemma crop_body_run (f : string) (w : world) :
  body f w =
  let w0 := emit (EvOpen (ipath f)) w in
  match find_file (ipath f) (files w) with
  | Some (FPng im) =>
      match crop im bounds with
      | inr c =>
          let w1 := emit (EvSave (opath f)) w0 in
          if mem_path (opath f) (locked w) then (Raise PermissionError, w1)
          else (Ret c, set_files (write_file (opath f) (FPng c) (files w)) w1)
      | inl e => (Raise e, w0)
      end
  | Some _ => (Raise UnidentifiedImageError, w0)
  | None => (Raise FileNotFoundError, w0)
  end.
Proof.
  unfold crop_body, bind, image_open, image_crop, image_save, ret, raise.
  simpl.
  destruct (find_file (ipath f) (files w)) as [[im|pages|]|]; try reflexivity.
  destruct (crop im bounds) as [e|c]; simpl; [reflexivity|].
  destruct (mem_path (opath f) (locked w)); reflexivity.
Qed.

(** One iteration never raises: it prints the report of its outcome. *)
Lemma crop_item_run (n i : nat) (f : string) (images : list image)
  (w : world) :
  item n i f images w =
  (Ret (match outcome f w with
        | inr c => if output_pdf then images ++ [c] else images
        | inl _ => images
        end),
   emit (EvPrint (report n (i, f) (outcome f w))) (snd (body f w))).
Proof.
  unfold crop_item, item_outcome, catch, bind, print, ret.
  destruct (body f w) as [[c|e] w1]; reflexivity.
Qed.

Lemma item_world_eq (n i : nat) (f : string) (w : world) :
  iworld n i f w =
  emit (EvPrint (report n (i, f) (outcome f w))) (snd (body f w)).
Proof. unfold item_world. rewrite crop_item_run. reflexivity. Qed.

Lemma crop_body_log (f : string) (w : world) :
  exists evs,
    log (snd (body f w)) = log w ++ EvOpen (ipath f) :: evs /\
    printed evs = [] /\ opened evs = [].
Proof.
  rewrite crop_body_run. cbv zeta.
  destruct (find_file (ipath f) (files w)) as [[im|pages|]|].
  - destruct (crop im bounds) as [e|c].
    + exists (@nil event). simpl. auto.
    + exists [EvSave (opath f)].
      destruct (mem_path (opath f) (locked w)); simpl;
        rewrite <- app_assoc; auto.
  - exists (@nil event). simpl. auto.
  - exists (@nil event). simpl. auto.
  - exists (@nil event). simpl. auto.
Qed.

Lemma crop_body_frame (f : string) (w : world) : frame w (snd (body f w)).
Proof.
  rewrite crop_body_run. cbv zeta.
  destruct (find_file (ipath f) (files w)) as [[im|pages|]|];
    [destruct (crop im bounds) as [e|c];
       [|destruct (mem_path (opath f) (locked w))]| | |];
    repeat split.
Qed.

(** A failing item leaves the files as they are; a successful one writes
    its output and nothing else. *)
Lemma crop_body_files (f : string) (w : world) :
  files (snd (body f w)) =
  match outcome f w with
  | inr c => write_file (opath f) (FPng c) (files w)
  | inl _ => files w
  end.
Proof.
  unfold item_outcome. rewrite crop_body_run. cbv zeta.
  destruct (find_file (ipath f) (files w)) as [[im|pages|]|];
    try reflexivity.
  destruct (crop im bounds) as [e|c]; [reflexivity|].
  destruct (mem_path (opath f) (locked w)); reflexivity.
Qed.

Lemma item_world_files (n i : nat) (f : string) (w : world) :
  files (iworld n i f w) =
  match outcome f w with
  | inr c => write_file (opath f) (FPng c) (files w)
  | inl _ => files w
  end.
Proof. rewrite item_world_eq. simpl. apply crop_body_files. Qed.

Lemma item_world_frame (n i : nat) (f : string) (w : world) :
  frame w (iworld n i f w).
Proof.
  rewrite item_world_eq.
  eapply frame_trans; [apply crop_body_frame|apply frame_emit].
Qed.

(** The loop runs to its end whatever the items do, and returns the images
    of the successful items when a PDF was asked for. *)
Lemma crop_loop_eq (n : nat) (items : list (nat * string)) :
  forall images w,
  loop n items images w =
  (Ret (images ++ if output_pdf then successes (outcomes n items w) else []),
   lworld n items w).
Proof.
  induction items as [|[i f] items IH]; intros images w.
  - simpl. unfold ret.
    assert (E : (if output_pdf then @nil image else []) = [])
      by (destruct output_pdf; reflexivity).
    rewrite E, app_nil_r. reflexivity.
  - simpl. unfold bind. rewrite crop_item_run, IH.
    rewrite item_world_eq. f_equal. f_equal.
    destruct (outcome f w) as [e|c]; [reflexivity|].
    clear. destruct output_pdf; simpl; rewrite <- ?app_assoc; reflexivity.
Qed.

(** One report is printed per item, and the input files are opened in the
    order of the batch. *)
Lemma loop_world_log (n : nat) (items : list (nat * string)) :
  forall w,
  exists delta,
    log (lworld n items w) = log w ++ delta /\
    printed delta = reports n items (outcomes n items w) /\
    opened delta = map (fun it => ipath (snd it)) items.
Proof.
  induction items as [|[i f] items IH]; intros w.
  - exists (@nil event). simpl. rewrite app_nil_r. auto.
  - simpl.
    destruct (IH (iworld n i f w)) as (delta & Hlog & Hpr & Hop).
    destruct (crop_body_log f w) as (evs & Hevs & Hpe & Hoe).
    exists (EvOpen (ipath f)
              :: evs ++ EvPrint (report n (i, f) (outcome f w)) :: delta).
    split; [|split].
    + rewrite Hlog, item_world_eq. simpl. rewrite Hevs.
      rewrite <- !app_assoc. simpl. rewrite <- ?app_assoc. reflexivity.
    + simpl. rewrite printed_app, Hpe. simpl. rewrite Hpr. reflexivity.
    + simpl. rewrite opened_app, Hoe. simpl. rewrite Hop. reflexivity.
Qed.

Lemma loop_world_frame (n : nat) (items : list (nat * string)) :
  forall w, frame w (lworld n items w).
Proof.
  induction items as [|[i f] items IH]; intros w; simpl.
  - apply frame_refl.
  - eapply frame_trans; [apply item_world_frame|apply IH].
Qed.



Lemma loop_outcomes_length (n : nat) (items : list (nat * string)) :
  forall w, length (outcomes n items w) = length items.
Proof.
  induction items as [|[i f] items IH]; intros w; simpl; [reflexivity|].
  rewrite IH. reflexivity.
Qed.


End LoopFacts.

(** ** Lists of items and outcomes *)

Section ItemLists.



Lemma map_snd_combine_seq (l : list string) :
  forall a, map snd (combine (seq a (length l)) l) = l.
Proof.
  induction l as [|x l IH]; intros a; simpl; [reflexivity|].
  rewrite IH. reflexivity.
Qed.

Lemma enumerate1_length (l : list string) :
  length (Py.enumerate1 l) = length l.
Proof.
  unfold Py.enumerate1. rewrite length_combine, length_seq. apply Nat.min_id.
Qed.

Lemma enumerate1_names (l : list string) : map snd (Py.enumerate1 l) = l.
Proof. apply map_snd_combine_seq. Qed.





Lemma reports_length (n : nat) (xs : list (nat * string))
  (os : list (exn + image)) :
  length xs = length os -> length (reports n xs os) = length xs.
Proof.
  revert os. induction xs as [|x xs IH]; intros [|o os] Hl; simpl in *;
    try discriminate; [reflexivity|].
  rewrite IH by congruence. reflexivity.
Qed.





End ItemLists.

(** ** The loop does not depend on the numbering of its items *)

Section LoopIndependence.

Variables input_folder output_folder : string.
Variable output_pdf : bool.
Variable bounds : rect.

Local Abbreviation outcome :=
  (item_outcome input_folder output_folder bounds).
Local Abbreviation outcomes :=
  (loop_outcomes input_folder output_folder output_pdf bounds).
Local Abbreviation iworld :=
  (item_world input_folder output_folder output_pdf bounds).
Local Abbreviation lworld :=
  (loop_world input_folder output_folder output_pdf bounds).
Local Abbreviation opath := (output_path output_folder).





End LoopIndependence.

(** ** Batch Cropper: properties *)

(** C3 (as the code has it).  For every batch the loop is started on, the
    number of items is printed once before the first item, the loop ends
    without raising, and exactly one report is printed per item, in batch
    order, carrying the item's position, the total and its outcome.  After
    the last report nothing is printed, except the message of the PDF step
    when a PDF was asked for and written; no count of successes is ever
    printed. *)
Theorem run_batch_reports (input_folder output_folder : string)
  (output_pdf : bool) (bounds : rect) (png_files : list string) (w : world) :
  let n := length png_files in
  let items := Py.enumerate1 png_files in
  let w0 := emit (EvPrint (MsgProcessing n)) w in
  let os := loop_outcomes input_folder output_folder output_pdf bounds
              n items w0 in
  exists images w1 tail,
    crop_loop input_folder output_folder output_pdf bounds n items [] w0
    = (Ret images, w1) /\
    printed (log w1) = printed (log w) ++ MsgProcessing n :: reports n items os /\
    length (reports n items os) = n /\
    printed (log (snd (run_batch input_folder output_folder output_pdf
                         bounds png_files w)))
    = printed (log w1) ++ tail /\
    (tail = [] \/ output_pdf = true /\ tail = [MsgCombined]).
Proof.
  intros n items w0 os.
  pose proof (crop_loop_eq input_folder output_folder output_pdf bounds
                n items [] w0) as Hrun.
  destruct (loop_world_log input_folder output_folder output_pdf bounds
              n items w0) as (delta & Hlog & Hpr & _).
  fold os in Hrun, Hpr.
  set (w1 := loop_world input_folder output_folder output_pdf bounds
               n items w0) in *.
  assert (Hp1 : printed (log w1)
                = printed (log w) ++ MsgProcessing n :: reports n items os).
  { rewrite Hlog, printed_app, Hpr. subst w0. simpl.
    rewrite printed_app. simpl. rewrite <- app_assoc. reflexivity. }
  assert (Hlen : length (reports n items os) = n).
  { rewrite reports_length.
    - apply enumerate1_length.
    - subst os. rewrite loop_outcomes_length. reflexivity. }
  unfold run_batch. fold n items. unfold bind, print. fold w0.
  rewrite Hrun. simpl app.
  destruct output_pdf eqn:Epdf.
  - destruct (successes os) as [|pdf_file images'] eqn:Es.
    + exists [], w1, []. simpl. rewrite app_nil_r. repeat split; auto.
    + unfold assemble, bind, image_save, print. simpl.
      destruct (mem_path (pdf_filepath output_folder) (locked w1)) eqn:El.
      * exists (pdf_file :: images'), w1, []. simpl.
        rewrite printed_app, app_nil_r. simpl. rewrite app_nil_r.
        repeat split; auto.
      * exists (pdf_file :: images'), w1, [MsgCombined]. simpl.
        rewrite !printed_app. simpl. rewrite app_nil_r.
        repeat split; auto.
  - exists [], w1, []. unfold ret. simpl. rewrite app_nil_r. repeat split; auto.
Qed.

(** C3, counterexample: three items, one of which fails.  The last thing
    printed is the report of the third item; no summary of attempted and
    succeeded items follows. *)
Lemma no_summary_after_last_item :
  let run := process_folder "in" "out" (Some (0, 0, 1, 1)) None false None
               world_bac in
  fst run = Ret tt /\
  printed (log (snd run)) =
  [MsgManualBounds (0, 0, 1, 1); MsgProcessing 3;
   MsgOk 1 3 "a.png"; MsgErr 2 3 "b.png" UnidentifiedImageError;
   MsgOk 3 3 "c.png"] /\
  after_last_item (printed (log (snd run))) = [].
Proof. vm_compute. repeat split. Qed.

Lemma loop_files_no_success (input_folder output_folder : string)
  (output_pdf : bool) (bounds : rect) (n : nat)
  (items : list (nat * string)) :
  forall w,
  successes (loop_outcomes input_folder output_folder output_pdf bounds
               n items w) = [] ->
  files (loop_world input_folder output_folder output_pdf bounds n items w)
  = files w.
Proof.
  induction items as [|[i f] items IH]; intros w Hs; simpl in *.
  - reflexivity.
  - destruct (item_outcome input_folder output_folder bounds f w)
      as [e|c] eqn:Ho; [|discriminate].
    rewrite (IH _ Hs), item_world_files, Ho. reflexivity.
Qed.

(** C4.  When a PDF is asked for and no item has succeeded, the assembly
    step raises ([images.pop(0)] on an empty list).  The run ends in the
    very state the loop left: no file is removed or rewritten, and no PDF is
    created. *)
Theorem assembly_failure_confined (input_folder output_folder : string)
  (manual_bounds : option rect) (verify_idx limit : option Z)
  (bounds : rect) (png_files : list string) (w wp w1 : world) :
  prepare input_folder output_folder manual_bounds verify_idx limit w
  = (Ret (Some (bounds, png_files)), wp) ->
  crop_loop input_folder output_folder true bounds (length png_files)
    (Py.enumerate1 png_files) []
    (emit (EvPrint (MsgProcessing (length png_files))) wp)
  = (Ret [], w1) ->
  assemble output_folder [] w1 = (Raise IndexError, w1) /\
  process_folder input_folder output_folder manual_bounds verify_idx true
    limit w
  = (Raise IndexError, w1) /\
  files w1 = files wp.
Proof.
  intros Hp Hl. split; [reflexivity|]. split.
  - unfold process_folder, bind. rewrite Hp.
    unfold run_batch, bind, print. rewrite Hl. reflexivity.
  - rewrite crop_loop_eq in Hl. injection Hl as Hs Hw. subst w1.
    rewrite loop_files_no_success; [reflexivity|exact Hs].
Qed.

Lemma assembly_failure_confined_witness :
  exists w1,
    process_folder "in" "out" (Some (0, 0, 1, 1)) None true None world_locked
    = (Raise IndexError, w1) /\
    files w1 = files world_locked.
Proof.
  eexists.
  destruct (@assembly_failure_confined "in" "out" (Some (0, 0, 1, 1)) None
              None (0, 0, 1, 1) ["a.png"%string] world_locked
              _ _ eq_refl eq_refl) as (_ & H & Hf).
  split; [exact H|exact Hf].
Defined.



(** ** Reading and writing in different folders *)

Section SeparateFolders.

Variables input_folder output_folder : string.
Variable output_pdf : bool.
Variable bounds : rect.
Hypothesis folders_differ : input_folder <> output_folder.

Local Abbreviation outcome :=
  (item_outcome input_folder output_folder bounds).
Local Abbreviation outcomes :=
  (loop_outcomes input_folder output_folder output_pdf bounds).
Local Abbreviation iworld :=
  (item_world input_folder output_folder output_pdf bounds).
Local Abbreviation ipath := (input_path input_folder).
Local Abbreviation opath := (output_path output_folder).

Lemma outcome_reads (f : string) (w v : world) :
  find_file (ipath f) (files v) = find_file (ipath f) (files w) ->
  locked v = locked w ->
  outcome f v = outcome f w.
Proof.
  intros Hf Hl. unfold item_outcome. rewrite !crop_body_run. cbv zeta.
  rewrite Hf, Hl.
  destruct (find_file (ipath f) (files w)) as [[im|pages|]|];
    try reflexivity.
  destruct (crop im bounds) as [e|c]; [reflexivity|].
  destruct (mem_path (opath f) (locked w)); reflexivity.
Qed.

(** An iteration does not touch the files of the input folder. *)
Lemma item_world_reads (n i : nat) (f g : string) (w : world) :
  find_file (ipath g) (files (iworld n i f w)) = find_file (ipath g) (files w).
Proof.
  rewrite item_world_files.
  destruct (outcome f w) as [e|c]; [reflexivity|].
  rewrite find_file_write.
  destruct (path_eqb_spec (ipath g) (opath f)) as [E|_]; [|reflexivity].
  unfold input_path, output_path in E. congruence.
Qed.

(** With separate folders the outcome of every item is the one it has in
    the world the loop starts in. *)
Lemma loop_outcomes_static (n : nat) (items : list (nat * string))
  (w : world) :
  outcomes n items w = map (fun it => outcome (snd it) w) items.
Proof.
  assert (H : forall v,
             (forall g, find_file (ipath g) (files v)
                        = find_file (ipath g) (files w)) ->
             locked v = locked w ->
             outcomes n items v = map (fun it => outcome (snd it) w) items).
  { induction items as [|[i f] items IH]; intros v Hf Hl; simpl.
    - reflexivity.
    - rewrite (outcome_reads f w v (Hf f) Hl). f_equal.
      apply IH.
      + intros g. rewrite item_world_reads. apply Hf.
      + destruct (item_world_frame input_folder output_folder output_pdf
                    bounds n i f v) as (_ & _ & -> & _).
        exact Hl. }
  apply H; auto.
Qed.

End SeparateFolders.

(** ** Every step of [process_folder] only adds to the log and the
       directories *)

Section Monotone.

Lemma grows_refl (w : world) : grows w w.
Proof. split; [auto|]. exists []. rewrite app_nil_r. reflexivity. Qed.

Lemma grows_trans (w1 w2 w3 : world) :
  grows w1 w2 -> grows w2 w3 -> grows w1 w3.
Proof.
  intros [Hd1 [d1 Hl1]] [Hd2 [d2 Hl2]]. split; [auto|].
  exists (d1 ++ d2). rewrite Hl2, Hl1, app_assoc. reflexivity.
Qed.

Lemma grows_emit (e : event) (w : world) : grows w (emit e w).
Proof. split; [auto|]. exists [e]. reflexivity. Qed.

Lemma mem_string_app (d : string) (l1 l2 : list string) :
  mem_string d (l1 ++ l2) = (mem_string d l1 || mem_string d l2)%bool.
Proof. unfold mem_string. apply existsb_app. Qed.

Lemma monotone_ret (A : Type) (a : A) : monotone (ret a).
Proof. intros w. apply grows_refl. Qed.

Lemma monotone_raise (A : Type) (e : exn) : monotone (@raise A e).
Proof. intros w. apply grows_refl. Qed.

Lemma monotone_bind (A B : Type) (m : M A) (k : A -> M B) :
  monotone m -> (forall a, monotone (k a)) -> monotone (bind m k).
Proof.
  intros Hm Hk w. unfold bind. specialize (Hm w).
  destruct (m w) as [[a|e] w1]; simpl in *; [|exact Hm].
  eapply grows_trans; [exact Hm|apply Hk].
Qed.

Lemma monotone_catch (A : Type) (m : M A) (h : exn -> M A) :
  monotone m -> (forall e, monotone (h e)) -> monotone (catch m h).
Proof.
  intros Hm Hh w. unfold catch. specialize (Hm w).
  destruct (m w) as [[a|e] w1]; simpl in *; [exact Hm|].
  eapply grows_trans; [exact Hm|apply Hh].
Qed.

Lemma monotone_print (m : msg) : monotone (print m).
Proof. intros w. apply grows_emit. Qed.

Lemma monotone_mkdir (d : string) : monotone (mkdir d).
Proof.
  intros w. unfold mkdir. cbv zeta.
  destruct (mem_string d (dirs (emit (EvMkdir d) w)));
    [apply grows_emit|].
  destruct (mem_string d (denied (emit (EvMkdir d) w)));
    [apply grows_emit|].
  split.
  - intros d' H. change (mem_string d' (dirs w ++ [d]) = true).
    rewrite mem_string_app, H. reflexivity.
  - exists [EvMkdir d]. reflexivity.
Qed.

Lemma monotone_listdir (d : string) : monotone (listdir d).
Proof.
  intros w. unfold listdir. cbv zeta.
  destruct (mem_string d (dirs (emit (EvListdir d) w))); apply grows_emit.
Qed.

Lemma monotone_image_open (p : path) : monotone (image_open p).
Proof.
  intros w. unfold image_open. cbv zeta.
  destruct (find_file p (files (emit (EvOpen p) w))) as [[im|pages|]|];
    apply grows_emit.
Qed.

Lemma monotone_image_crop (im : image) (box : rect) :
  monotone (image_crop im box).
Proof.
  unfold image_crop. destruct (crop im box);
    [apply monotone_raise|apply monotone_ret].
Qed.

Lemma monotone_image_save (p : path) (f : file) : monotone (image_save p f).
Proof.
  intros w. unfold image_save. cbv zeta.
  destruct (mem_path p (locked (emit (EvSave p) w)));
    [apply grows_emit|].
  simpl. split; [auto|]. exists [EvSave p]. reflexivity.
Qed.

Lemma monotone_image_show (im : image) : monotone (image_show im).
Proof. intros w. apply grows_emit. Qed.

Lemma monotone_input : monotone input.
Proof.
  intros w. unfold input. cbv zeta.
  destruct (stdin (emit EvInput w)); [apply grows_emit|].
  simpl. split; [auto|]. exists [EvInput]. reflexivity.
Qed.

End Monotone.

Create HintDb monotone.

#[local] Hint Resolve monotone_ret monotone_raise monotone_print
  monotone_mkdir monotone_listdir monotone_image_open monotone_image_crop
  monotone_image_save monotone_image_show monotone_input : monotone.

(** Decompose a computation into its calls. *)
Ltac monotone_steps :=
  repeat first
    [ solve [auto with monotone]
    | apply monotone_bind; [|intros]
    | apply monotone_catch; [|intros]
    | match goal with
      | |- monotone (match ?x with _ => _ end) => destruct x
      | |- monotone (let '(_, _) := ?x in _) => destruct x
      end ].

Section PrepareFacts.

Variables input_folder output_folder : string.
Variable manual_bounds : option rect.
Variable verify_idx : option Z.
Variable output_pdf : bool.
Variable limit : option Z.

Lemma monotone_determine_bounds (im : image) :
  monotone (determine_bounds manual_bounds im).
Proof. unfold determine_bounds. monotone_steps. Qed.

Lemma monotone_verify (im : image) (p : path) (b : rect) :
  monotone (verify verify_idx im p b).
Proof. unfold verify. monotone_steps. Qed.

Lemma monotone_apply_limit (l : list string) : monotone (apply_limit limit l).
Proof. unfold apply_limit. monotone_steps. Qed.

Lemma monotone_crop_loop (b : rect) (n : nat) (items : list (nat * string)) :
  forall images,
  monotone (crop_loop input_folder output_folder output_pdf b n items images).
Proof.
  induction items as [|[i f] items IH]; intros images; simpl.
  - apply monotone_ret.
  - apply monotone_bind; [|intros; apply IH].
    unfold crop_item, crop_body. monotone_steps.
Qed.

Lemma monotone_run_batch (b : rect) (l : list string) :
  monotone (run_batch input_folder output_folder output_pdf b l).
Proof.
  unfold run_batch.
  apply monotone_bind; [apply monotone_print|intros _].
  apply monotone_bind; [apply monotone_crop_loop|intros images].
  unfold assemble. monotone_steps.
Qed.

End PrepareFacts.

Lemma bind_assoc (A B C : Type) (m : M A) (k : A -> M B) (h : B -> M C)
  (w : world) :
  bind (bind m k) h w = bind m (fun a => bind (k a) h) w.
Proof. unfold bind. destruct (m w) as [[a|e] w1]; reflexivity. Qed.

(** Whatever follows [mkdir d], the call is the first one logged, and the
    directory it created is still there at the end. *)
Lemma mkdir_then (A : Type) (d : string) (k : unit -> M A) (w : world) :
  (forall u, monotone (k u)) ->
  let w' := snd (bind (mkdir d) k w) in
  (exists rest, log w' = log w ++ EvMkdir d :: rest) /\
  (fst (mkdir d w) = Ret tt -> mem_string d (dirs w') = true).
Proof.
  intros Hk. cbv zeta. unfold bind.
  assert (Hm : log (snd (mkdir d w)) = log w ++ [EvMkdir d] /\
               (fst (mkdir d w) = Ret tt ->
                mem_string d (dirs (snd (mkdir d w))) = true)).
  { unfold mkdir. cbv zeta.
    change (dirs (emit (EvMkdir d) w)) with (dirs w).
    change (denied (emit (EvMkdir d) w)) with (denied w).
    destruct (mem_string d (dirs w)) eqn:Ed; [simpl; auto|].
    destruct (mem_string d (denied w)) eqn:En; simpl.
    - split; [reflexivity|discriminate].
    - split; [reflexivity|]. intros _.
      change (mem_string d (dirs w ++ [d]) = true).
      rewrite mem_string_app. unfold mem_string at 2. simpl.
      rewrite String.eqb_refl. apply orb_true_r. }
  destruct Hm as [Hlog Hdir].
  destruct (mkdir d w) as [[[]|e] w1]; simpl in *.
  - destruct (Hk tt w1) as [Hd [delta Hl]]. split.
    + exists delta. rewrite Hl, Hlog, <- app_assoc. reflexivity.
    + intros H. apply Hd. apply Hdir. exact H.
  - split; [exists []; exact Hlog|discriminate].
Qed.

(** C10.  The [mkdir] of the output directory is the first call of every
    run, before the listing, the detection and the gate.  Unless that call
    itself raises, the directory exists when the run ends, however it ends:
    normally, by an early return, or by an exception. *)
Theorem output_dir_created_first (input_folder output_folder : string)
  (manual_bounds : option rect) (verify_idx : option Z) (output_pdf : bool)
  (limit : option Z) (w : world) :
  let w' := snd (process_folder input_folder output_folder manual_bounds
                   verify_idx output_pdf limit w) in
  (exists rest, log w' = log w ++ EvMkdir output_folder :: rest) /\
  (fst (mkdir output_folder w) = Ret tt ->
   mem_string output_folder (dirs w') = true).
Proof.
  unfold process_folder, prepare. rewrite bind_assoc.
  apply mkdir_then. intros _.
  apply monotone_bind.
  - apply monotone_bind; [apply monotone_listdir|intros names].
    destruct (Py.sorted (filter is_png names)) as [|f fs];
      [monotone_steps|].
    destruct (Py.getitem (f :: fs) (verify_idx_or_0 verify_idx));
      [|apply monotone_raise].
    apply monotone_bind; [apply monotone_image_open|intros im].
    apply monotone_bind; [apply monotone_determine_bounds|intros found].
    destruct found as [b|]; [|apply monotone_ret].
    apply monotone_bind; [apply monotone_verify|intros go].
    destruct go; [|apply monotone_ret].
    apply monotone_bind; [apply monotone_apply_limit|intros l].
    apply monotone_ret.
  - intros [[b l]|]; [apply monotone_run_batch|apply monotone_ret].
Qed.

Lemma output_dir_created_first_witness :
  let run := process_folder "in" "out" None (Some 0) false None
               world_no_png in
  fst run = Ret tt /\
  printed (log (snd run)) = [MsgNoPng] /\
  mem_string "out" (dirs world_no_png) = false /\
  mem_string "out" (dirs (snd run)) = true.
Proof.
  split; [reflexivity|]. split; [reflexivity|]. split; [reflexivity|].
  apply (proj2 (@output_dir_created_first "in" "out" None (Some 0) false
                  None world_no_png)).
  reflexivity.
Defined.

(** ** The steps before the loop *)

Section Prepare.

Variables input_folder output_folder : string.
Variable manual_bounds : option rect.
Variable verify_idx : option Z.

Lemma bind_Ret_inv (A B : Type) (m : M A) (k : A -> M B) (w w' : world)
  (b : B) :
  bind m k w = (Ret b, w') ->
  exists a w1, m w = (Ret a, w1) /\ k a w1 = (Ret b, w').
Proof.
  unfold bind. destruct (m w) as [[a|e] w1]; [|discriminate].
  intros H. exists a, w1. auto.
Qed.

Lemma mkdir_disk (d : string) (w w1 : world) (r : result unit) :
  mkdir d w = (r, w1) -> same_disk w w1.
Proof.
  unfold mkdir. cbv zeta.
  destruct (mem_string d (dirs (emit (EvMkdir d) w)));
    [|destruct (mem_string d (denied (emit (EvMkdir d) w)))];
    intros H; injection H as _ <-; split; reflexivity.
Qed.

Lemma listdir_inv (d : string) (w w1 : world) (names : list string) :
  listdir d w = (Ret names, w1) ->
  names = entries d (files w) /\ same_disk w w1.
Proof.
  unfold listdir. cbv zeta.
  destruct (mem_string d (dirs (emit (EvListdir d) w))); [|discriminate].
  intros H. injection H as <- <-. repeat split.
Qed.

Lemma image_open_inv (p : path) (w w1 : world) (im : image) :
  image_open p w = (Ret im, w1) ->
  find_file p (files w) = Some (FPng im) /\ same_disk w w1.
Proof.
  unfold image_open. cbv zeta.
  change (files (emit (EvOpen p) w)) with (files w).
  destruct (find_file p (files w)) as [[im'|pages|]|]; try discriminate.
  intros H. injection H as <- <-. repeat split.
Qed.

Lemma determine_bounds_inv (im : image) (w w1 : world)
  (found : option rect) :
  determine_bounds manual_bounds im w = (Ret found, w1) ->
  found = match manual_bounds with
          | Some b => Some b
          | None => find_content_bounds im
          end /\ same_disk w w1.
Proof.
  unfold determine_bounds, bind, print, ret.
  destruct manual_bounds as [b|].
  - intros H. injection H as <- <-. repeat split.
  - destruct (find_content_bounds im) as [b|];
      intros H; injection H as <- <-; repeat split.
Qed.

Lemma verify_disk (im : image) (p : path) (b : rect) (w w1 : world)
  (r : result bool) :
  verify verify_idx im p b w = (r, w1) -> same_disk w w1.
Proof.
  unfold verify, bind, image_crop, image_show, print, input, ret, raise.
  destruct verify_idx as [i|].
  - destruct (crop im b) as [e|c]; simpl.
    + intros H. injection H as _ <-. split; reflexivity.
    + destruct (stdin w) as [|line rest]; simpl.
      * intros H. injection H as _ <-. split; reflexivity.
      * destruct (Py.lower line =? "q")%string;
          intros H; injection H as _ <-; split; reflexivity.
  - intros H. injection H as _ <-. split; reflexivity.
Qed.

Lemma apply_limit_run (limit : option Z) (l : list string) (w : world) :
  apply_limit limit l w =
  match limit_truthy limit with
  | Some k => (Ret (Py.slice_to l k), emit (EvPrint (MsgLimiting k)) w)
  | None => (Ret l, w)
  end.
Proof.
  unfold apply_limit. destruct (limit_truthy limit); reflexivity.
Qed.

Lemma same_disk_trans (w1 w2 w3 : world) :
  same_disk w1 w2 -> same_disk w2 w3 -> same_disk w1 w3.
Proof. unfold same_disk. intuition congruence. Qed.

(** A run that reaches the loop: the batch is the sorted listing of the
    PNG files of the input folder, cut by the limit; the rectangle is the
    caller's when one was given, and else the one detected on the reference
    image. *)
Lemma prepare_result (limit : option Z) (w wp : world) (bounds : rect)
  (batch : list string) :
  prepare input_folder output_folder manual_bounds verify_idx limit w
  = (Ret (Some (bounds, batch)), wp) ->
  let png_files :=
    Py.sorted (filter is_png (entries input_folder (files w))) in
  batch = match limit_truthy limit with
          | Some k => Py.slice_to png_files k
          | None => png_files
          end /\
  match manual_bounds with
  | Some b => bounds = b
  | None =>
      exists name im,
        Py.getitem png_files (verify_idx_or_0 verify_idx) = Some name /\
        find_file (input_folder, name) (files w) = Some (FPng im) /\
        find_content_bounds im = Some bounds
  end /\
  same_disk w wp.
Proof.
  intros H. cbv zeta. unfold prepare in H.
  apply bind_Ret_inv in H as (u & w1 & Hmk & H).
  apply mkdir_disk in Hmk.
  apply bind_Ret_inv in H as (names & w2 & Hls & H).
  apply listdir_inv in Hls as [-> Hd2].
  destruct Hmk as [Hf1 Hl1]. rewrite Hf1 in H.
  set (png := Py.sorted (filter is_png (entries input_folder (files w))))
    in *.
  destruct png as [|f0 fs] eqn:Epng; [discriminate|]. rewrite <- Epng in *.
  destruct (Py.getitem png (verify_idx_or_0 verify_idx)) as [name|] eqn:Eg;
    [|discriminate].
  apply bind_Ret_inv in H as (im & w3 & Hop & H).
  apply image_open_inv in Hop as [Hfind Hd3].
  apply bind_Ret_inv in H as (found & w4 & Hdb & H).
  apply determine_bounds_inv in Hdb as [Hfound Hd4].
  destruct found as [b|]; [|discriminate].
  apply bind_Ret_inv in H as (go & w5 & Hv & H).
  apply verify_disk in Hv.
  destruct go; [|discriminate].
  apply bind_Ret_inv in H as (l & w6 & Hal & H).
  rewrite apply_limit_run in Hal.
  unfold ret in H. injection H as <- <- <-.
  assert (Hd : same_disk w w5).
  { eapply same_disk_trans; [|exact Hv].
    eapply same_disk_trans; [|exact Hd4].
    eapply same_disk_trans; [|exact Hd3].
    eapply same_disk_trans; [|exact Hd2]. split; assumption. }
  destruct Hd2 as [Hf2 _]. rewrite Hf2, Hf1 in Hfind.
  split; [|split].
  - destruct (limit_truthy limit); injection Hal as <- _; reflexivity.
  - destruct manual_bounds as [mb|].
    + congruence.
    + exists name, im. auto.
  - destruct (limit_truthy limit); injection Hal as _ <-;
      [|exact Hd].
    destruct Hd as [Hf Hl]. split; assumption.
Qed.

(** The limit is applied last: a run with a limit is the run without one,
    followed by lines 91-93. *)
Lemma prepare_limit (limit : option Z) (w : world) :
  prepare input_folder output_folder manual_bounds verify_idx limit w =
  bind (prepare input_folder output_folder manual_bounds verify_idx None)
       (fun r =>
          match r with
          | None => ret None
          | Some (b, l) =>
              bind (apply_limit limit l) (fun l' => ret (Some (b, l')))
          end) w.
Proof.
  unfold prepare, bind.
  destruct (mkdir output_folder w) as [[u|e] w1]; [|reflexivity].
  destruct (listdir input_folder w1) as [[names|e] w2]; [|reflexivity].
  destruct (Py.sorted (filter is_png names)) as [|f0 fs] eqn:Epng;
    [reflexivity|].
  destruct (Py.getitem (f0 :: fs) (verify_idx_or_0 verify_idx)) as [name|];
    [|reflexivity].
  destruct (image_open (input_folder, name) w2) as [[im|e] w3];
    [|reflexivity].
  destruct (determine_bounds manual_bounds im w3) as [[[b|]|e] w4];
    try reflexivity.
  destruct (verify verify_idx im (input_folder, name) b w4)
    as [[[|]|e] w5]; reflexivity.
Qed.

End Prepare.

(** ** The order of the batch *)

Section StringOrder.

Lemma string_compare_le_trans : forall s1 s2 s3 : string,
  (s1 ?= s2)%string <> Gt -> (s2 ?= s3)%string <> Gt ->
  (s1 ?= s3)%string <> Gt.
Proof.
  induction s1 as [|c1 s1 IH]; intros [|c2 s2] [|c3 s3]; simpl;
    try congruence.
  unfold Ascii.compare.
  destruct (N.compare_spec (N_of_ascii c1) (N_of_ascii c2)) as [E12|L12|G12];
    destruct (N.compare_spec (N_of_ascii c2) (N_of_ascii c3))
      as [E23|L23|G23];
    destruct (N.compare_spec (N_of_ascii c1) (N_of_ascii c3))
      as [E13|L13|G13];
    intros H1 H2; try congruence; try lia.
  apply IH with s2; assumption.
Qed.

Lemma string_leb_le (s1 s2 : string) :
  String.leb s1 s2 = true <-> (s1 ?= s2)%string <> Gt.
Proof.
  unfold String.leb. destruct (s1 ?= s2)%string; split; congruence.
Qed.

Lemma string_leb_trans :
  Transitive (fun s1 s2 => is_true (String.leb s1 s2)).
Proof.
  intros s1 s2 s3 H1 H2. unfold is_true in *.
  rewrite string_leb_le in *. eapply string_compare_le_trans; eassumption.
Qed.

(** [sorted] returns its argument rearranged in ascending order. *)
Lemma sorted_spec (l : list string) :
  StronglySorted (fun s1 s2 => is_true (String.leb s1 s2)) (Py.sorted l) /\
  Permutation l (Py.sorted l).
Proof.
  split.
  - apply Py.StringSort.StronglySorted_sort. exact string_leb_trans.
  - apply Py.StringSort.Permuted_sort.
Qed.

Lemma slice_to_firstn (l : list string) (k : Z) :
  exists j, Py.slice_to l k = firstn j l.
Proof.
  unfold Py.slice_to. destruct (0 <=? k); eexists; reflexivity.
Qed.

End StringOrder.

(** C9.  A limit of 0 is the same run as no limit.  A limit [k > 0] cuts
    the batch of the run without limit down to its first [k] file names
    (and announces it); nothing else changes before the loop. *)
Theorem limit_zero_is_no_limit (input_folder output_folder : string)
  (manual_bounds : option rect) (verify_idx : option Z) (output_pdf : bool)
  (w : world) :
  process_folder input_folder output_folder manual_bounds verify_idx
    output_pdf (Some 0) w
  = process_folder input_folder output_folder manual_bounds verify_idx
      output_pdf None w /\
  forall (k : Z) (bounds : rect) (batch : list string) (wp : world),
    0 < k ->
    prepare input_folder output_folder manual_bounds verify_idx None w
    = (Ret (Some (bounds, batch)), wp) ->
    batch = Py.sorted (filter is_png (entries input_folder (files w))) /\
    prepare input_folder output_folder manual_bounds verify_idx (Some k) w
    = (Ret (Some (bounds, firstn (Z.to_nat k) batch)),
       emit (EvPrint (MsgLimiting k)) wp).
Proof.
  split; [reflexivity|].
  intros k bounds batch wp Hk H. split.
  - apply prepare_result in H. cbv zeta in H. destruct H as [H _]. exact H.
  - rewrite prepare_limit. unfold bind at 1. rewrite H.
    unfold bind. rewrite apply_limit_run. unfold limit_truthy.
    destruct (Z.eqb_spec k 0) as [->|_]; [lia|].
    unfold Py.slice_to, ret.
    destruct (Z.leb_spec 0 k); [reflexivity|lia].
Qed.

Lemma limit_zero_is_no_limit_witness :
  exists wp,
    prepare "in" "out" (Some (0, 0, 1, 1)) None (Some 2) world_bac
    = (Ret (Some ((0, 0, 1, 1), ["a.png"; "b.png"]%string)), wp).
Proof.
  eexists.
  apply (proj2 (@limit_zero_is_no_limit "in" "out" (Some (0, 0, 1, 1)) None
                  false world_bac)
           2 (0, 0, 1, 1) ["a.png"; "b.png"; "c.png"]%string _
           eq_refl eq_refl).
Defined.

(** C6.  [sorted] puts [b.png], [a.png], [c.png] in the order [a.png],
    [b.png], [c.png].  In every run that reaches the loop, the batch is an
    initial segment of the PNG names of the input folder in ascending
    order; the loop opens the files in the order of the batch; and when the
    run ends normally with a PDF, its pages are the cropped images of the
    items that succeeded, in the order of the batch. *)
Theorem batch_order :
  Py.sorted ["b.png"; "a.png"; "c.png"]%string
  = ["a.png"; "b.png"; "c.png"]%string /\
  forall (input_folder output_folder : string) (manual_bounds : option rect)
         (verify_idx limit : option Z) (w wp : world) (bounds : rect)
         (batch : list string),
    prepare input_folder output_folder manual_bounds verify_idx limit w
    = (Ret (Some (bounds, batch)), wp) ->
    let listing := filter is_png (entries input_folder (files w)) in
    let n := length batch in
    let w0 := emit (EvPrint (MsgProcessing n)) wp in
    StronglySorted (fun s1 s2 => is_true (String.leb s1 s2))
                   (Py.sorted listing) /\
    Permutation listing (Py.sorted listing) /\
    (exists j, batch = firstn j (Py.sorted listing)) /\
    (forall output_pdf : bool,
       exists images w1 delta,
         crop_loop input_folder output_folder output_pdf bounds n
           (Py.enumerate1 batch) [] w0 = (Ret images, w1) /\
         log w1 = log w0 ++ delta /\
         opened delta = map (input_path input_folder) batch) /\
    (forall w' : world,
       process_folder input_folder output_folder manual_bounds verify_idx
         true limit w = (Ret tt, w') ->
       find_file (pdf_filepath output_folder) (files w')
       = Some (FPdf (successes
                       (loop_outcomes input_folder output_folder true bounds
                          n (Py.enumerate1 batch) w0)))).
Proof.
  split; [reflexivity|].
  intros input_folder output_folder manual_bounds verify_idx limit w wp
    bounds batch Hp listing n w0.
  destruct (sorted_spec listing) as [Hs Hperm].
  split; [exact Hs|]. split; [exact Hperm|]. split; [|split].
  - apply prepare_result in Hp. cbv zeta in Hp. destruct Hp as [-> _].
    fold listing. destruct (limit_truthy limit) as [k|].
    + apply slice_to_firstn.
    + exists (length (Py.sorted listing)). symmetry. apply firstn_all.
  - intros output_pdf.
    destruct (loop_world_log input_folder output_folder output_pdf bounds n
                (Py.enumerate1 batch) w0) as (delta & Hlog & _ & Hop).
    eexists _, _, delta. split; [apply crop_loop_eq|]. split; [exact Hlog|].
    rewrite Hop, <- (map_map snd (input_path input_folder)).
    rewrite enumerate1_names. reflexivity.
  - intros w' Hrun.
    unfold process_folder, bind in Hrun. rewrite Hp in Hrun.
    unfold run_batch, bind, print in Hrun. fold n w0 in Hrun.
    rewrite crop_loop_eq in Hrun. simpl app in Hrun.
    destruct (successes _) as [|pdf_file images'] in Hrun |- *;
      [discriminate|].
    unfold assemble, bind, image_save, print in Hrun. cbv zeta in Hrun.
    destruct (mem_path _ _) in Hrun; [discriminate|].
    injection Hrun as <-. simpl. rewrite find_file_write.
    destruct (path_eqb_spec (pdf_filepath output_folder)
                (pdf_filepath output_folder)); congruence.
Qed.

Lemma batch_order_witness :
  let run := process_folder "in" "out" (Some (0, 0, 1, 1)) None true None
               world_bac in
  fst run = Ret tt /\
  find_file ("out", "all-cropped.pdf")%string (files (snd run))
  = Some (FPdf [Arr2 1 1 [[1]]; Arr2 1 1 [[5]]]).
Proof.
  cbv zeta. split; [vm_compute; reflexivity|].
  transitivity
    (Some (FPdf (successes
                   (loop_outcomes "in" "out" true (0, 0, 1, 1) 3
                      (Py.enumerate1 ["a.png"; "b.png"; "c.png"]%string)
                      (emit (EvPrint (MsgProcessing 3))
                         (snd (prepare "in" "out" (Some (0, 0, 1, 1)) None
                                 None world_bac)))))));
    [|vm_compute; reflexivity].
  apply (proj2 (proj2 (proj2 (proj2
           (proj2 batch_order "in"%string "out"%string (Some (0, 0, 1, 1))
              None None world_bac _ (0, 0, 1, 1)
              ["a.png"; "b.png"; "c.png"]%string
              ltac:(vm_compute; reflexivity)))))).
  vm_compute. reflexivity.
Defined.

(** ** Override rectangles *)

(** A box whose corners are in order is always cropped, whether it fits in
    the image or not, and the result has the size of the box. *)
Lemma crop_succeeds (im : image) (l t r b : Z) :
  l <= r -> t <= b ->
  exists c,
    crop im (l, t, r, b) = inr c /\
    height c = Z.to_nat (b - t) /\ width c = Z.to_nat (r - l).
Proof.
  intros Hlr Htb. unfold crop.
  destruct (Z.ltb_spec r l); [lia|].
  destruct (Z.ltb_spec b t); [lia|].
  destruct im; eexists; repeat split; reflexivity.
Qed.




(** * Further properties *)

(** ** Bounds Detector: when it answers, and what the answer contains *)

Lemma np_where_nil_iff (flags : list bool) :
  np_where flags = [] <-> forall i, nth i flags false = false.
Proof.
  split.
  - intros E i. destruct (nth i flags false) eqn:Hn; [|reflexivity].
    apply np_where_In in Hn. rewrite E in Hn. contradiction.
  - intros H. destruct (np_where flags) as [|x xs] eqn:E; [reflexivity|].
    assert (Hin : In x (np_where flags)) by (rewrite E; left; reflexivity).
    apply np_where_In in Hin. rewrite H in Hin. discriminate.
Qed.

(** The value returned, in terms of the flagged rows and columns. *)
Lemma find_content_bounds_some (a : ndarray) (box : rect) :
  find_content_bounds a = Some box ->
  let rows := np_where (row_flags (to_gray a)) in
  let cols := np_where (col_flags (to_gray a)) in
  rows <> [] /\ cols <> [] /\
  box = (Z.max (Z.of_nat (hd 0%nat cols) - padding) 0,
         Z.max (Z.of_nat (hd 0%nat rows) - padding) 0,
         Z.min (Z.of_nat (last cols 0%nat) + padding) (Z.of_nat (width a)),
         Z.min (Z.of_nat (last rows 0%nat) + padding) (Z.of_nat (height a))).
Proof.
  unfold find_content_bounds. destruct (to_gray_shape a) as [-> ->].
  cbv zeta.
  destruct (np_where (row_flags (to_gray a))) as [|x xs]; [discriminate|].
  destruct (np_where (col_flags (to_gray a))) as [|y ys]; [discriminate|].
  change ((length (x :: xs) =? 0)%nat || (length (y :: ys) =? 0)%nat)%bool
    with false. cbv iota.
  intros E. injection E as <-.
  split; [discriminate|]. split; [discriminate|]. reflexivity.
Qed.

(** Without a flagged row, or without a flagged column, there is no
    rectangle. *)
Lemma bounds_none_of_flags (a : ndarray) :
  (forall i, nth i (row_flags (to_gray a)) false = false) \/
  (forall j, nth j (col_flags (to_gray a)) false = false) ->
  find_content_bounds a = None.
Proof.
  rewrite <- !np_where_nil_iff. unfold find_content_bounds.
  intros [E|E]; rewrite E; [reflexivity|].
  destruct (np_where (row_flags (to_gray a))); reflexivity.
Qed.



(** X2.  An image with no rows, or with no columns, has no content: the
    means over an empty axis are [nan] and nothing is flagged. *)
Theorem find_content_bounds_empty (a : ndarray) :
  wf_ndarray a ->
  height a = 0%nat \/ width a = 0%nat ->
  find_content_bounds a = None.
Proof.
  intros Hwf Hz. apply bounds_none_of_flags. left.
  apply np_where_nil_iff. unfold np_where.
  apply where_from_all_false.
  pose proof (to_gray_wf a Hwf) as [Hh Hw].
  destruct (to_gray_shape a) as [Eh Ew].
  unfold row_flags, mean_axis1. rewrite map_map. apply Forall_map.
  destruct Hz as [Hz|Hz].
  - rewrite Eh, Hz in Hh. apply length_zero_iff_nil in Hh. rewrite Hh.
    constructor.
  - eapply Forall_impl; [|exact Hw].
    intros r Hr. simpl in Hr. rewrite Ew, Hz in Hr.
    apply length_zero_iff_nil in Hr. subst r. reflexivity.
Qed.

Lemma find_content_bounds_empty_witness :
  find_content_bounds (Arr3 2 0 3 [[]; []]) = None.
Proof.
  apply find_content_bounds_empty.
  - simpl. repeat split; try lia. repeat constructor.
  - right. reflexivity.
Defined.

(** X3.  A rectangle returned for a well-formed image contains every row
    and every column whose mean is below the threshold: cropping to it cuts
    no flagged row or column. *)
Theorem find_content_bounds_contains (a : ndarray) (l t r b : Z) :
  wf_ndarray a ->
  find_content_bounds a = Some (l, t, r, b) ->
  (forall i, nth i (row_flags (to_gray a)) false = true ->
             t <= Z.of_nat i < b) /\
  (forall j, nth j (col_flags (to_gray a)) false = true ->
             l <= Z.of_nat j < r).
Proof.
  intros Hwf H. pose proof (to_gray_wf a Hwf) as Hg.
  pose proof (row_flags_length Hg) as Hrl.
  pose proof (col_flags_length Hg) as Hcl.
  destruct (to_gray_shape a) as [Eh Ew]. rewrite Eh in Hrl. rewrite Ew in Hcl.
  apply find_content_bounds_some in H. cbv zeta in H.
  destruct H as (Hrne & Hcne & E). injection E as -> -> -> ->.
  pose proof (where_from_sorted (row_flags (to_gray a)) 0) as Hrs.
  pose proof (where_from_sorted (col_flags (to_gray a)) 0) as Hcs.
  fold (np_where (row_flags (to_gray a))) in Hrs.
  fold (np_where (col_flags (to_gray a))) in Hcs.
  unfold padding. split.
  - intros i Hi.
    assert (Hlt : (i < length (row_flags (to_gray a)))%nat).
    { destruct (Nat.lt_ge_cases i (length (row_flags (to_gray a))));
        [assumption|]. rewrite nth_overflow in Hi by assumption.
      discriminate. }
    apply np_where_In in Hi.
    pose proof (sorted_hd_le Hrs i Hi). pose proof (sorted_le_last Hrs i Hi).
    lia.
  - intros j Hj.
    assert (Hlt : (j < length (col_flags (to_gray a)))%nat).
    { destruct (Nat.lt_ge_cases j (length (col_flags (to_gray a))));
        [assumption|]. rewrite nth_overflow in Hj by assumption.
      discriminate. }
    apply np_where_In in Hj.
    pose proof (sorted_hd_le Hcs j Hj). pose proof (sorted_le_last Hcs j Hj).
    lia.
Qed.

Lemma find_content_bounds_contains_witness :
  2 <= Z.of_nat 12 < 30.
Proof.
  apply (proj2 (@find_content_bounds_contains
                  (block_image 30 40 12 11 20 15) 2 1 30 25
                  ltac:(split; [reflexivity|repeat constructor])
                  ltac:(vm_compute; reflexivity)) 12%nat).
  vm_compute. reflexivity.
Defined.

(** X4.  A rectangle the detector returns is accepted by [crop] for every
    image, and the crop is never empty: with automatic detection the
    preview and the items cannot fail on the rectangle. *)
Theorem detected_rect_crops (a : ndarray) (box : rect) (im : image) :
  wf_ndarray a ->
  find_content_bounds a = Some box ->
  exists c,
    crop im box = inr c /\ (0 < height c)%nat /\ (0 < width c)%nat.
Proof.
  intros Hwf H. pose proof (to_gray_wf a Hwf) as Hg.
  pose proof (row_flags_length Hg) as Hrl.
  pose proof (col_flags_length Hg) as Hcl.
  destruct (to_gray_shape a) as [Eh Ew]. rewrite Eh in Hrl. rewrite Ew in Hcl.
  apply find_content_bounds_some in H. cbv zeta in H.
  destruct H as (Hrne & Hcne & ->).
  pose proof (np_where_range _ Hrne) as Hrr.
  pose proof (np_where_range _ Hcne) as Hcr.
  rewrite Hrl in Hrr. rewrite Hcl in Hcr. unfold padding.
  match goal with
  | |- exists c, crop im (?l, ?t, ?r, ?b) = _ /\ _ =>
      destruct (@crop_succeeds im l t r b) as (c & Hc & Hh & Hw);
        [lia|lia|]; exists c; split; [exact Hc|]; rewrite Hh, Hw; lia
  end.
Qed.

Lemma detected_rect_crops_witness :
  exists c,
    crop page_a (2, 1, 30, 25) = inr c /\
    (0 < height c)%nat /\ (0 < width c)%nat.
Proof.
  apply (@detected_rect_crops (block_image 30 40 12 11 20 15)).
  - split; [reflexivity|repeat constructor].
  - vm_compute. reflexivity.
Defined.

(** ** Bounds Detector: luminance *)

Section Luminance.

Lemma Qsum_Forall2 (xs ys : list Q) :
  Forall2 Qeq xs ys -> (Qsum xs == Qsum ys)%Q.
Proof.
  induction 1 as [|x y xs ys Hxy _ IH]; simpl; [reflexivity|].
  apply Qplus_comp; assumption.
Qed.

Lemma lt_float_Forall2 (xs ys : list Q) (t : Q) :
  Forall2 Qeq xs ys ->
  lt_float (np_mean xs) t = lt_float (np_mean ys) t.
Proof.
  intros H. pose proof (Forall2_length H) as Hl.
  pose proof (Qsum_Forall2 H) as Hs.
  destruct H as [|x y xs ys Hxy H]; [reflexivity|].
  unfold np_mean, lt_float, Qltb. f_equal.
  apply Qleb_comp; [reflexivity|].
  rewrite Hl. apply Qdiv_comp; [exact Hs|reflexivity].
Qed.

Lemma zip_cons_Forall2 (r1 r2 : list Q) :
  Forall2 Qeq r1 r2 -> forall c1 c2,
  Forall2 (Forall2 Qeq) c1 c2 ->
  Forall2 (Forall2 Qeq) (zip_cons r1 c1) (zip_cons r2 c2).
Proof.
  induction 1 as [|x y r1 r2 Hxy _ IH]; intros c1 c2 Hc; [constructor|].
  destruct Hc as [|d1 d2 c1 c2 Hd Hc]; simpl; constructor.
  - constructor; assumption.
  - apply IH. exact Hc.
Qed.

Lemma columns_Forall2 (w : nat) (px1 px2 : list (list Q)) :
  Forall2 (Forall2 Qeq) px1 px2 ->
  Forall2 (Forall2 Qeq) (columns w px1) (columns w px2).
Proof.
  unfold columns. induction 1 as [|r1 r2 px1 px2 Hr _ IH]; simpl.
  - induction w as [|w IHw]; simpl; constructor; [constructor|exact IHw].
  - apply zip_cons_Forall2; assumption.
Qed.

Lemma flags_Forall2 (t : Q) (px1 px2 : list (list Q)) :
  Forall2 (Forall2 Qeq) px1 px2 ->
  map (fun m => lt_float m t) (map np_mean px1)
  = map (fun m => lt_float m t) (map np_mean px2).
Proof.
  induction 1 as [|r1 r2 px1 px2 Hr _ IH]; simpl; [reflexivity|].
  rewrite IH, (lt_float_Forall2 t Hr). reflexivity.
Qed.

(** Detection depends on the luminance of the pixels only. *)
Lemma find_content_bounds_luminance (a1 a2 : ndarray) :
  height a1 = height a2 -> width a1 = width a2 ->
  Forall2 (Forall2 Qeq) (f_px (to_gray a1)) (f_px (to_gray a2)) ->
  find_content_bounds a1 = find_content_bounds a2.
Proof.
  intros Hh Hw Hpx. unfold find_content_bounds, row_flags, col_flags,
    mean_axis1, mean_axis0.
  destruct (to_gray_shape a1) as [-> ->].
  destruct (to_gray_shape a2) as [-> ->].
  rewrite (flags_Forall2 threshold Hpx).
  rewrite Hw, Hh.
  rewrite (flags_Forall2 threshold (columns_Forall2 (width a2) Hpx)).
  reflexivity.
Qed.

Lemma Zsum_repeat (v : Z) (c : nat) : Zsum (repeat v c) = v * Z.of_nat c.
Proof.
  induction c as [|c IH]; [simpl; lia|].
  change (Zsum (repeat v (S c))) with (v + Zsum (repeat v c)).
  rewrite IH. lia.
Qed.

Lemma channel_mean_repeat (v : Z) (c : nat) :
  (0 < c)%nat -> (channel_mean c (repeat v c) == inject_Z v)%Q.
Proof.
  intros Hc. unfold channel_mean, Qeq, inject_Z. simpl.
  rewrite Zsum_repeat.
  destruct c as [|c]; [lia|].
  rewrite <- Pos.of_nat_succ, Zpos_P_of_succ_nat, Nat2Z.inj_succ. lia.
Qed.

End Luminance.

(** X5.  An image whose channels are all equal (a gray page stored as RGB)
    gets the same answer as the single-channel image: the luminance the
    detector works on is the average of the channels. *)
Theorem find_content_bounds_gray_rgb (h w c : nat) (px : list (list Z)) :
  (0 < c)%nat ->
  find_content_bounds (Arr3 h w c (replicate_channels c px))
  = find_content_bounds (Arr2 h w px).
Proof.
  intros Hc. apply find_content_bounds_luminance; try reflexivity.
  simpl. unfold replicate_channels.
  induction px as [|r px IH]; simpl; constructor; [|exact IH].
  induction r as [|v r IHr]; simpl; constructor; [|exact IHr].
  apply channel_mean_repeat. exact Hc.
Qed.

Lemma find_content_bounds_gray_rgb_witness :
  find_content_bounds
    (Arr3 2 2 3 [[[0; 0; 0]; [255; 255; 255]];
                 [[255; 255; 255]; [255; 255; 255]]])
  = find_content_bounds (Arr2 2 2 [[0; 255]; [255; 255]]).
Proof.
  apply (@find_content_bounds_gray_rgb 2 2 3 [[0; 255]; [255; 255]]).
  lia.
Defined.

(** ** The calls [process_folder] is made of *)

Section Footprint.

Variable R : world -> world -> Prop.
Hypothesis R_refl : forall w, R w w.
Hypothesis R_trans : forall w1 w2 w3, R w1 w2 -> R w2 w3 -> R w1 w3.

Lemma preserves_ret (A : Type) (a : A) : preserves R (ret a).
Proof. intros w. apply R_refl. Qed.

Lemma preserves_raise (A : Type) (e : exn) : preserves R (@raise A e).
Proof. intros w. apply R_refl. Qed.

Lemma preserves_bind (A B : Type) (m : M A) (k : A -> M B) :
  preserves R m -> (forall a, preserves R (k a)) -> preserves R (bind m k).
Proof.
  intros Hm Hk w. unfold bind. specialize (Hm w).
  destruct (m w) as [[a|e] w1]; simpl in *; [|exact Hm].
  eapply R_trans; [exact Hm|apply Hk].
Qed.

Lemma preserves_catch (A : Type) (m : M A) (h : exn -> M A) :
  preserves R m -> (forall e, preserves R (h e)) -> preserves R (catch m h).
Proof.
  intros Hm Hh w. unfold catch. specialize (Hm w).
  destruct (m w) as [[a|e] w1]; simpl in *; [exact Hm|].
  eapply R_trans; [exact Hm|apply Hh].
Qed.

Lemma preserves_image_crop (im : image) (box : rect) :
  preserves R (image_crop im box).
Proof.
  unfold image_crop. destruct (crop im box);
    [apply preserves_raise|apply preserves_ret].
Qed.

Variables input_folder output_folder : string.

Hypothesis R_print : forall m, preserves R (print m).
Hypothesis R_mkdir : preserves R (mkdir output_folder).
Hypothesis R_listdir : preserves R (listdir input_folder).
Hypothesis R_open : forall f, preserves R (image_open (input_folder, f)).
Lemma preserves_determine_bounds (manual_bounds : option rect) (im : image) :
  preserves R (determine_bounds manual_bounds im).
Proof.
  unfold determine_bounds. destruct manual_bounds as [b|].
  - apply preserves_bind; [apply R_print|intros _; apply preserves_ret].
  - destruct (find_content_bounds im); [apply preserves_ret|].
    apply preserves_bind; [apply R_print|intros _; apply preserves_ret].
Qed.

Lemma preserves_verify (verify_idx : option Z) (im : image) (p : path)
  (b : rect) :
  (verify_idx <> None ->
   preserves R input /\ forall c, preserves R (image_show c)) ->
  preserves R (verify verify_idx im p b).
Proof.
  intros Hgate. unfold verify. destruct verify_idx as [i|];
    [|apply preserves_ret].
  destruct Hgate as [Hin Hshow]; [discriminate|].
  apply preserves_bind; [apply preserves_image_crop|intros c].
  apply preserves_bind; [apply Hshow|intros _].
  apply preserves_bind; [apply R_print|intros _].
  apply preserves_bind; [apply R_print|intros _].
  apply preserves_bind; [apply R_print|intros _].
  apply preserves_bind; [apply Hin|intros line].
  destruct (Py.lower line =? "q")%string; [|apply preserves_ret].
  apply preserves_bind; [apply R_print|intros _; apply preserves_ret].
Qed.

Lemma preserves_apply_limit (limit : option Z) (l : list string) :
  preserves R (apply_limit limit l).
Proof.
  unfold apply_limit. destruct (limit_truthy limit); [|apply preserves_ret].
  apply preserves_bind; [apply R_print|intros _; apply preserves_ret].
Qed.

(** The steps before the loop save nothing. *)
Lemma prepare_footprint (manual_bounds : option rect)
  (verify_idx limit : option Z) :
  (verify_idx <> None ->
   preserves R input /\ forall c, preserves R (image_show c)) ->
  preserves R (prepare input_folder output_folder manual_bounds verify_idx
                 limit).
Proof.
  intros Hgate. unfold prepare.
  apply preserves_bind; [apply R_mkdir|intros _].
  apply preserves_bind; [apply R_listdir|intros names].
  destruct (Py.sorted (filter is_png names)) as [|f fs].
  { apply preserves_bind; [apply R_print|intros _; apply preserves_ret]. }
  destruct (Py.getitem (f :: fs) (verify_idx_or_0 verify_idx));
    [|apply preserves_raise].
  apply preserves_bind; [apply R_open|intros im].
  apply preserves_bind; [apply preserves_determine_bounds|intros found].
  destruct found as [b|]; [|apply preserves_ret].
  apply preserves_bind; [apply preserves_verify; exact Hgate|intros go].
  destruct go; [|apply preserves_ret].
  apply preserves_bind; [apply preserves_apply_limit|intros l].
  apply preserves_ret.
Qed.

Hypothesis R_save :
  forall f c, preserves R (image_save (output_path output_folder f) (FPng c)).

Lemma preserves_crop_item (output_pdf : bool) (b : rect) (n i : nat)
  (f : string) (images : list image) :
  preserves R (crop_item input_folder output_folder output_pdf b n i f images).
Proof.
  unfold crop_item, crop_body. apply preserves_catch.
  - apply preserves_bind.
    + apply preserves_bind; [apply R_open|intros im].
      apply preserves_bind; [apply preserves_image_crop|intros c].
      apply preserves_bind; [apply R_save|intros _; apply preserves_ret].
    + intros c.
      apply preserves_bind; [apply R_print|intros _; apply preserves_ret].
  - intros e.
    apply preserves_bind; [apply R_print|intros _; apply preserves_ret].
Qed.

Lemma preserves_crop_loop (output_pdf : bool) (b : rect) (n : nat)
  (items : list (nat * string)) :
  forall images,
  preserves R (crop_loop input_folder output_folder output_pdf b n items
                 images).
Proof.
  induction items as [|[i f] items IH]; intros images; simpl.
  - apply preserves_ret.
  - apply preserves_bind; [apply preserves_crop_item|intros; apply IH].
Qed.

Lemma preserves_run_batch (output_pdf : bool) (b : rect) (l : list string) :
  (output_pdf = true ->
   forall pages,
     preserves R (image_save (pdf_filepath output_folder) (FPdf pages))) ->
  preserves R (run_batch input_folder output_folder output_pdf b l).
Proof.
  intros Hpdf. unfold run_batch.
  apply preserves_bind; [apply R_print|intros _].
  apply preserves_bind; [apply preserves_crop_loop|intros images].
  destruct output_pdf; [|apply preserves_ret].
  unfold assemble. destruct images as [|pdf_file images'];
    [apply preserves_raise|].
  apply preserves_bind; [apply Hpdf; reflexivity|intros _; apply R_print].
Qed.

(** What holds of every call of [process_folder] holds of the run: one
    [mkdir] of the output folder, one listing of the input folder, opening
    files of the input folder, saving [cropped_] files in the output
    folder, printing; the PDF is saved only when asked for, and the
    operator is involved only when the gate is on. *)
Lemma process_folder_footprint (manual_bounds : option rect)
  (verify_idx : option Z) (output_pdf : bool) (limit : option Z) :
  (verify_idx <> None ->
   preserves R input /\ forall c, preserves R (image_show c)) ->
  (output_pdf = true ->
   forall pages,
     preserves R (image_save (pdf_filepath output_folder) (FPdf pages))) ->
  preserves R (process_folder input_folder output_folder manual_bounds
                 verify_idx output_pdf limit).
Proof.
  intros Hgate Hpdf. unfold process_folder.
  apply preserves_bind; [apply prepare_footprint; exact Hgate|].
  intros [[b l]|]; [apply preserves_run_batch; exact Hpdf
                   |apply preserves_ret].
Qed.

End Footprint.

(** Unfold a call on the environment and split on its tests. *)
Ltac call_cases :=
  intros ?w;
  unfold print, mkdir, listdir, image_open, image_save, image_show, input;
  cbv zeta;
  repeat match goal with
         | |- context [match ?x with _ => _ end] => destruct x eqn:?
         | |- context [if ?x then _ else _] => destruct x eqn:?
         end;
  simpl.

(** ** Nothing outside the output folder is touched *)

Section OutsideOutput.

Variables input_folder output_folder : string.





End OutsideOutput.


(** ** The PDF is written only on request *)

Lemma pdf_path_not_output (output_folder f : string) :
  path_eqb (pdf_filepath output_folder) (output_path output_folder f) = false.
Proof.
  destruct (path_eqb_spec (pdf_filepath output_folder)
              (output_path output_folder f)) as [E|_]; [|reflexivity].
  unfold pdf_filepath, output_path in E. simpl in E. discriminate.
Qed.

(** X7.  Without [output_pdf], a run never creates or replaces
    [all-cropped.pdf] in the output folder; and no item ever writes to that
    path, so the PDF cannot be mistaken for a cropped page. *)
Theorem no_pdf_unless_requested (input_folder output_folder : string)
  (manual_bounds : option rect) (verify_idx limit : option Z) (w : world) :
  find_file (pdf_filepath output_folder)
    (files (snd (process_folder input_folder output_folder manual_bounds
                   verify_idx false limit w)))
  = find_file (pdf_filepath output_folder) (files w).
Proof.
  apply (@process_folder_footprint
           (fun w w' => find_file (pdf_filepath output_folder) (files w')
                        = find_file (pdf_filepath output_folder) (files w))).
  - reflexivity.
  - intros w1 w2 w3 H1 H2. congruence.
  - intros m. call_cases. reflexivity.
  - call_cases; reflexivity.
  - call_cases; reflexivity.
  - intros f. call_cases; reflexivity.
  - intros f c. call_cases; [reflexivity|].
    cbn [files set_files emit].
    rewrite find_file_write, pdf_path_not_output. reflexivity.
  - intros _. split.
    + call_cases; reflexivity.
    + intros c. call_cases. reflexivity.
  - discriminate.
Qed.

(** ** Runs without the gate *)

Section Unattended.

Lemma unattended_refl (w : world) : unattended w w.
Proof.
  split; [reflexivity|]. exists []. rewrite app_nil_r. auto.
Qed.

Lemma unattended_trans (w1 w2 w3 : world) :
  unattended w1 w2 -> unattended w2 w3 -> unattended w1 w3.
Proof.
  intros [Hs1 (d1 & Hl1 & Hi1)] [Hs2 (d2 & Hl2 & Hi2)]. split; [congruence|].
  exists (d1 ++ d2). rewrite Hl2, Hl1, app_assoc, existsb_app, Hi1, Hi2. auto.
Qed.

Lemma unattended_emit (e : event) (w : world) :
  is_interactive e = false -> unattended w (emit e w).
Proof.
  intros He. split; [reflexivity|]. exists [e]. simpl. rewrite He. auto.
Qed.

End Unattended.

(** X8.  With [verify_idx = None] the run never involves the operator:
    no preview is shown, [input()] is never called and the pending input
    lines are left unread, so the run cannot block. *)
Theorem no_gate_never_blocks (input_folder output_folder : string)
  (manual_bounds : option rect) (output_pdf : bool) (limit : option Z)
  (w : world) :
  unattended w
    (snd (process_folder input_folder output_folder manual_bounds None
            output_pdf limit w)).
Proof.
  assert (Hcall : forall w e ds fs,
            is_interactive e = false ->
            unattended w (World ds (denied w) fs (locked w) (stdin w)
                            (log w ++ [e]))).
  { intros w0 e ds fs He. split; [reflexivity|].
    exists [e]. simpl. rewrite He. auto. }
  apply process_folder_footprint.
  - apply unattended_refl.
  - apply unattended_trans.
  - intros m. call_cases. match goal with |- unattended ?v _ => apply (Hcall v) end; auto.
  - call_cases; match goal with |- unattended ?v _ => apply (Hcall v) end; auto.
  - call_cases; match goal with |- unattended ?v _ => apply (Hcall v) end; auto.
  - intros f. call_cases; match goal with |- unattended ?v _ => apply (Hcall v) end; auto.
  - intros f c. call_cases; match goal with |- unattended ?v _ => apply (Hcall v) end; auto.
  - intros H. contradiction H. reflexivity.
  - intros _ pages. call_cases; match goal with |- unattended ?v _ => apply (Hcall v) end; auto.
Qed.

(** ** Runs that end before the loop *)

Section EarlyExits.

Variables input_folder output_folder : string.
Variable manual_bounds : option rect.
Variable output_pdf : bool.
Variable limit : option Z.

Lemma listdir_after_mkdir (w : world) :
  let w1 := snd (mkdir output_folder w) in
  listdir input_folder w1 =
  (if mem_string input_folder (dirs w1)
   then Ret (entries input_folder (files w))
   else Raise FileNotFoundError,
   emit (EvListdir input_folder) w1).
Proof.
  cbv zeta. unfold listdir. cbv zeta.
  change (dirs (emit (EvListdir input_folder) (snd (mkdir output_folder w))))
    with (dirs (snd (mkdir output_folder w))).
  change (files (emit (EvListdir input_folder)
                   (snd (mkdir output_folder w))))
    with (files (snd (mkdir output_folder w))).
  assert (Hf : files (snd (mkdir output_folder w)) = files w).
  { destruct (mkdir output_folder w) as [r w1] eqn:E.
    apply mkdir_disk in E. destruct E as [E _]. exact E. }
  rewrite Hf.
  destruct (mem_string input_folder (dirs (snd (mkdir output_folder w))));
    reflexivity.
Qed.


End EarlyExits.

(** X9.  A folder without PNG files: the run ends normally after the
    message of line 64; nothing is opened, nothing is written, and the
    operator is not asked. *)
Theorem no_png_files_returns (input_folder output_folder : string)
  (manual_bounds : option rect) (verify_idx : option Z) (output_pdf : bool)
  (limit : option Z) (w : world) :
  let w1 := snd (mkdir output_folder w) in
  fst (mkdir output_folder w) = Ret tt ->
  mem_string input_folder (dirs w1) = true ->
  filter is_png (entries input_folder (files w)) = [] ->
  process_folder input_folder output_folder manual_bounds verify_idx
    output_pdf limit w
  = (Ret tt, emit (EvPrint MsgNoPng) (emit (EvListdir input_folder) w1)).
Proof.
  intros w1 Hmk Hdir Hnone.
  pose proof (listdir_after_mkdir input_folder output_folder w) as Hls.
  cbv zeta in Hls. fold w1 in Hls. rewrite Hdir in Hls.
  unfold process_folder, prepare, bind. subst w1.
  destruct (mkdir output_folder w) as [[[]|e] w1]; [|discriminate].
  simpl in Hls |- *. rewrite Hls, Hnone. reflexivity.
Qed.

Lemma no_png_files_returns_witness :
  fst (process_folder "in" "out" None (Some 0) true (Some 3) world_no_png)
  = Ret tt.
Proof.
  rewrite (@no_png_files_returns "in" "out" None (Some 0) true (Some 3)
             world_no_png eq_refl eq_refl eq_refl).
  reflexivity.
Defined.





(** ** The gate *)

Section Gate.

Variables input_folder output_folder : string.
Variable manual_bounds : option rect.
Variable limit : option Z.

(** With the gate on, the steps before the loop hand over a batch only
    when the operator has typed a line other than [q] or [Q]. *)
Lemma prepare_accepts (i : Z) (w wp : world) (bounds : rect)
  (batch : list string) :
  prepare input_folder output_folder manual_bounds (Some i) limit w
  = (Ret (Some (bounds, batch)), wp) ->
  exists line rest,
    stdin w = line :: rest /\ (Py.lower line =? "q")%string = false.
Proof.
  intros H. unfold prepare in H.
  apply bind_Ret_inv in H as (u & w1 & Hmk & H).
  apply bind_Ret_inv in H as (names & w2 & Hls & H).
  destruct (Py.sorted (filter is_png names)) as [|f0 fs]; [discriminate|].
  destruct (Py.getitem (f0 :: fs) (verify_idx_or_0 (Some i))) as [name|];
    [|discriminate].
  apply bind_Ret_inv in H as (im & w3 & Hop & H).
  apply bind_Ret_inv in H as (found & w4 & Hdb & H).
  destruct found as [b|]; [|discriminate].
  apply bind_Ret_inv in H as (go & w5 & Hv & H).
  destruct go; [|discriminate].
  assert (Hs : stdin w4 = stdin w).
  { assert (H1 : stdin w1 = stdin w).
    { revert Hmk. unfold mkdir. cbv zeta.
      destruct (mem_string _ _); [|destruct (mem_string _ _)];
        intros E; injection E as _ <-; reflexivity. }
    assert (H2 : stdin w2 = stdin w1).
    { revert Hls. unfold listdir. cbv zeta.
      destruct (mem_string _ _); intros E; injection E as _ <-; reflexivity. }
    assert (H3 : stdin w3 = stdin w2).
    { revert Hop. unfold image_open. cbv zeta.
      destruct (find_file _ _) as [[?|?|]|]; intros E; try discriminate E.
      injection E as _ <-. reflexivity. }
    assert (H4 : stdin w4 = stdin w3).
    { revert Hdb. unfold determine_bounds, bind, print, ret.
      destruct manual_bounds as [mb|];
        [|destruct (find_content_bounds im)];
        intros E; injection E as _ <-; reflexivity. }
    congruence. }
  rewrite <- Hs. revert Hv.
  unfold verify, bind, image_crop, image_show, print, input, ret, raise.
  destruct (crop im b) as [e|c]; simpl; [discriminate|].
  destruct (stdin w4) as [|line rest]; simpl; [discriminate|].
  destruct (Py.lower line =? "q")%string eqn:Eq; [discriminate|].
  intros _. exists line, rest. auto.
Qed.

End Gate.

(** X12.  With the gate on, when the operator types [q] or [Q], or when
    there is no input left, the run ends where the steps before the loop
    end: the loop and the PDF step are not started and no file is
    written. *)
Theorem gate_refusal_writes_nothing (input_folder output_folder : string)
  (manual_bounds : option rect) (i : Z) (output_pdf : bool)
  (limit : option Z) (w : world) :
  stdin w = [] \/
  (exists line rest, stdin w = line :: rest /\ Py.lower line = "q"%string) ->
  let run := process_folder input_folder output_folder manual_bounds
               (Some i) output_pdf limit w in
  snd run = snd (prepare input_folder output_folder manual_bounds (Some i)
                   limit w) /\
  files (snd run) = files w.
Proof.
  intros Hq. cbv zeta.
  assert (Hf : files (snd (prepare input_folder output_folder manual_bounds
                             (Some i) limit w)) = files w).
  { apply (@prepare_footprint (fun w w' => files w' = files w)).
    - reflexivity.
    - intros w1 w2 w3 H1 H2. congruence.
    - intros m. call_cases. reflexivity.
    - call_cases; reflexivity.
    - call_cases; reflexivity.
    - intros f. call_cases; reflexivity.
    - intros _. split.
      + call_cases; reflexivity.
      + intros c. call_cases. reflexivity. }
  unfold process_folder, bind.
  destruct (prepare input_folder output_folder manual_bounds (Some i) limit w)
    as [[[[b l]|]|e] wp] eqn:Hp; simpl in *; auto.
  exfalso. apply prepare_accepts in Hp as (line & rest & Hs & Hl).
  destruct Hq as [Hq|(line' & rest' & Hq & Hl')]; [congruence|].
  rewrite Hq in Hs. injection Hs as <- <-. rewrite Hl' in Hl. discriminate.
Qed.

Lemma gate_refusal_writes_nothing_witness :
  let run := process_folder "in" "out" (Some (0, 0, 1, 1)) (Some 0) true None
               world_quit in
  fst run = Ret tt /\ files (snd run) = files world_quit.
Proof.
  split; [reflexivity|].
  apply (@gate_refusal_writes_nothing "in" "out" (Some (0, 0, 1, 1)) 0 true
           None world_quit).
  right. exists "Q"%string, []. split; reflexivity.
Defined.

(** ** Output files *)

Lemma output_path_inj (output_folder f g : string) :
  output_path output_folder f = output_path output_folder g -> f = g.
Proof.
  unfold output_path. simpl. intros E. congruence.
Qed.

(** X13.  Two different file names never share an output path, and no
    output path is the path of the PDF: the items of a batch cannot
    overwrite each other's cropped file, nor the PDF one of them. *)
Theorem output_paths_distinct (output_folder f g : string) :
  (output_path output_folder f = output_path output_folder g <-> f = g) /\
  output_path output_folder f <> pdf_filepath output_folder.
Proof.
  split; [split; [apply output_path_inj|intros ->; reflexivity]|].
  unfold output_path, pdf_filepath. intros E. injection E as E.
  simpl in E. discriminate.
Qed.

Lemma output_paths_distinct_witness :
  "a.png"%string = "a.png"%string.
Proof.
  apply (proj1 (proj1 (output_paths_distinct "out" "a.png" "a.png"))).
  reflexivity.
Defined.

(** ** Cropping twice *)

Section Idempotence.

Variables input_folder output_folder : string.
Variable output_pdf : bool.
Variable bounds : rect.
Hypothesis folders_differ : input_folder <> output_folder.

Local Abbreviation outcome :=
  (item_outcome input_folder output_folder bounds).
Local Abbreviation iworld :=
  (item_world input_folder output_folder output_pdf bounds).
Local Abbreviation lworld :=
  (loop_world input_folder output_folder output_pdf bounds).
Local Abbreviation ipath := (input_path input_folder).
Local Abbreviation opath := (output_path output_folder).

Lemma write_file_same (p : path) (f : file) (fs : list (path * file)) :
  find_file p fs = Some f -> write_file p f fs = fs.
Proof.
  induction fs as [|[q g] fs IH]; simpl; [discriminate|].
  destruct (path_eqb_spec p q) as [->|_].
  - intros E. injection E as ->. reflexivity.
  - intros E. rewrite IH by exact E. reflexivity.
Qed.

Local Abbreviation agrees := (reads_agree input_folder).

Lemma agrees_item (n i : nat) (f : string) (w v : world) :
  agrees w v -> agrees w (iworld n i f v).
Proof.
  intros [Hf Hl]. split.
  - intros g.
    rewrite (item_world_reads output_pdf bounds folders_differ). apply Hf.
  - destruct (item_world_frame input_folder output_folder output_pdf bounds
                n i f v) as (_ & _ & -> & _).
    exact Hl.
Qed.

Lemma agrees_outcome (f : string) (w v : world) :
  agrees w v -> outcome f v = outcome f w.
Proof.
  intros [Hf Hl]. apply outcome_reads; [apply Hf|exact Hl].
Qed.

Lemma agrees_loop (n : nat) (items : list (nat * string)) (w : world) :
  forall v, agrees w v -> agrees w (lworld n items v).
Proof.
  induction items as [|[i f] items IH]; intros v Hv; simpl; [exact Hv|].
  apply IH. apply agrees_item. exact Hv.
Qed.

(** Once the crop of [f] is in place, the rest of the loop leaves it
    there. *)
Lemma loop_keeps_output (n : nat) (f : string) (c : image) (w : world)
  (items : list (nat * string)) :
  outcome f w = inr c ->
  forall v, agrees w v ->
  find_file (opath f) (files v) = Some (FPng c) ->
  find_file (opath f) (files (lworld n items v)) = Some (FPng c).
Proof.
  intros Hc. induction items as [|[i g] items IH]; intros v Hv Hin; simpl.
  - exact Hin.
  - apply IH; [apply agrees_item; exact Hv|].
    rewrite item_world_files, (agrees_outcome g Hv).
    destruct (outcome g w) as [e|c'] eqn:Hg; [exact Hin|].
    rewrite find_file_write.
    destruct (path_eqb_spec (opath f) (opath g)) as [E|_]; [|exact Hin].
    apply output_path_inj in E. subst g. congruence.
Qed.

(** After the loop the output of every item that succeeded is the crop of
    its input. *)
Lemma loop_outputs_static (n : nat) (w : world)
  (items : list (nat * string)) :
  forall v, agrees w v ->
  forall it c, In it items -> outcome (snd it) w = inr c ->
  find_file (opath (snd it)) (files (lworld n items v)) = Some (FPng c).
Proof.
  induction items as [|[i f] items IH]; intros v Hv it c Hin Hc;
    [contradiction|]. simpl.
  destruct Hin as [<-|Hin].
  - simpl in Hc |- *. apply loop_keeps_output with (w := w); [exact Hc| |].
    + apply agrees_item. exact Hv.
    + rewrite item_world_files, (agrees_outcome f Hv), Hc, find_file_write.
      destruct (path_eqb_spec (opath f) (opath f)); congruence.
  - apply IH; [apply agrees_item; exact Hv|exact Hin|exact Hc].
Qed.

Lemma second_pass (n : nat) (w : world) (items : list (nat * string)) :
  forall v, agrees w v ->
  (forall it c, In it items -> outcome (snd it) w = inr c ->
                find_file (opath (snd it)) (files v) = Some (FPng c)) ->
  files (lworld n items v) = files v.
Proof.
  induction items as [|[i f] items IH]; intros v Hv Hout; simpl;
    [reflexivity|].
  assert (Hstep : files (iworld n i f v) = files v).
  { rewrite item_world_files, (agrees_outcome f Hv).
    destruct (outcome f w) as [e|c] eqn:Hc; [reflexivity|].
    apply write_file_same. apply (Hout (i, f) c); [left; reflexivity|].
    exact Hc. }
  rewrite IH.
  - exact Hstep.
  - apply agrees_item. exact Hv.
  - intros it c Hin Hc. rewrite Hstep. apply Hout; [right; exact Hin|].
    exact Hc.
Qed.

Lemma loop_world_twice (n m : nat) (items : list (nat * string))
  (w : world) :
  files (lworld m items (lworld n items w)) = files (lworld n items w).
Proof.
  assert (Hw : agrees w w) by (split; reflexivity).
  apply second_pass with (w := w).
  - apply agrees_loop. exact Hw.
  - intros it c Hin Hc. apply loop_outputs_static with (w := w); assumption.
Qed.

End Idempotence.

(** X14.  When the output folder is not the input folder, running the loop
    a second time on the same batch with the same rectangle changes no
    file: each item writes again exactly what is already there. *)
Theorem crop_loop_idempotent (input_folder output_folder : string)
  (output_pdf : bool) (bounds : rect) (n m : nat)
  (items : list (nat * string)) (images images' : list image) (w : world) :
  input_folder <> output_folder ->
  let w1 := snd (crop_loop input_folder output_folder output_pdf bounds
                   n items images w) in
  files (snd (crop_loop input_folder output_folder output_pdf bounds
                m items images' w1))
  = files w1.
Proof.
  intros Hd. cbv zeta. rewrite !crop_loop_eq. simpl.
  apply loop_world_twice. exact Hd.
Qed.

Lemma crop_loop_idempotent_witness :
  let items := Py.enumerate1 ["a.png"; "b.png"; "c.png"]%string in
  let w1 := snd (crop_loop "in" "out" false (0, 0, 1, 1) 3 items []
                   world_bac) in
  files (snd (crop_loop "in" "out" false (0, 0, 1, 1) 3 items [] w1))
  = files w1.
Proof.
  apply (@crop_loop_idempotent "in" "out" false (0, 0, 1, 1) 3 3).
  discriminate.
Defined.

(** ** The size of the cropped pages *)

Lemma crop_shape (im c : image) (l t r b : Z) :
  crop im (l, t, r, b) = inr c ->
  l <= r /\ t <= b /\
  height c = Z.to_nat (b - t) /\ width c = Z.to_nat (r - l).
Proof.
  unfold crop.
  destruct (Z.ltb_spec r l); [discriminate|].
  destruct (Z.ltb_spec b t); [discriminate|].
  intros E. injection E as <-. destruct im; repeat split; assumption.
Qed.

Lemma outcome_inr_crop (input_folder output_folder : string) (bounds : rect)
  (f : string) (w : world) (c : image) :
  item_outcome input_folder output_folder bounds f w = inr c ->
  exists im,
    find_file (input_path input_folder f) (files w) = Some (FPng im) /\
    crop im bounds = inr c /\
    mem_path (output_path output_folder f) (locked w) = false.
Proof.
  unfold item_outcome. rewrite crop_body_run. cbv zeta.
  destruct (find_file (input_path input_folder f) (files w))
    as [[im|pages|]|]; try discriminate.
  destruct (crop im bounds) as [e|c'] eqn:Ec; [discriminate|].
  destruct (mem_path (output_path output_folder f) (locked w)) eqn:El;
    [discriminate|].
  simpl. intros E. injection E as <-. exists im. auto.
Qed.

(** X15.  Every image the loop saves, and so every page of the PDF, has
    the size of the rectangle, right - left by bottom - top, whatever the
    sizes of the input images. *)
Theorem cropped_pages_same_size (input_folder output_folder : string)
  (output_pdf : bool) (l t r b : Z) (n : nat)
  (items : list (nat * string)) (w : world) (c : image) :
  In c (successes (loop_outcomes input_folder output_folder output_pdf
                     (l, t, r, b) n items w)) ->
  height c = Z.to_nat (b - t) /\ width c = Z.to_nat (r - l).
Proof.
  revert w. induction items as [|[i f] items IH]; intros w Hin; simpl in Hin.
  - contradiction.
  - destruct (item_outcome input_folder output_folder (l, t, r, b) f w)
      as [e|c'] eqn:Ho.
    + apply (IH _ Hin).
    + destruct Hin as [<-|Hin]; [|apply (IH _ Hin)].
      apply outcome_inr_crop in Ho as (im & _ & Hc & _).
      apply crop_shape in Hc. tauto.
Qed.

Lemma cropped_pages_same_size_witness :
  height (Arr2 3 3 [[5; 6; 0]; [7; 8; 0]; [0; 0; 0]]) = 3%nat /\
  width (Arr2 3 3 [[5; 6; 0]; [7; 8; 0]; [0; 0; 0]]) = 3%nat.
Proof.
  apply (@cropped_pages_same_size "in" "out" true 0 0 3 3 3
           (Py.enumerate1 ["a.png"; "b.png"; "c.png"]%string) world_bac).
  vm_compute. right. left. reflexivity.
Defined.

(** ** What the batch is made of *)

Lemma firstn_incl (A : Type) (k : nat) (l : list A) (x : A) :
  In x (firstn k l) -> In x l.
Proof.
  intros H. rewrite <- (firstn_skipn k l). apply in_or_app. left. exact H.
Qed.

Lemma firstn_NoDup (A : Type) (k : nat) (l : list A) :
  NoDup l -> NoDup (firstn k l).
Proof.
  intros H. rewrite <- (firstn_skipn k l) in H.
  apply NoDup_app_remove_r in H. exact H.
Qed.

(** X16.  The batch holds nothing but names of the input folder that end
    in [.png] (in any letter case), and no name twice when the folder lists
    none twice: other files are never opened by the loop. *)
Theorem batch_is_png_listing (input_folder output_folder : string)
  (manual_bounds : option rect) (verify_idx limit : option Z)
  (w wp : world) (bounds : rect) (batch : list string) :
  prepare input_folder output_folder manual_bounds verify_idx limit w
  = (Ret (Some (bounds, batch)), wp) ->
  (forall f, In f batch ->
             is_png f = true /\ In f (entries input_folder (files w))) /\
  (NoDup (entries input_folder (files w)) -> NoDup batch).
Proof.
  intros H. apply prepare_result in H. cbv zeta in H.
  destruct H as (Hb & _ & _).
  set (listing := filter is_png (entries input_folder (files w))) in *.
  destruct (sorted_spec listing) as [_ Hperm].
  assert (Hpre : exists k, batch = firstn k (Py.sorted listing)).
  { rewrite Hb. destruct (limit_truthy limit) as [k|].
    - apply slice_to_firstn.
    - exists (length (Py.sorted listing)). symmetry. apply firstn_all. }
  destruct Hpre as [k ->]. split.
  - intros f Hin. apply firstn_incl in Hin.
    apply (Permutation_in _ (Permutation_sym Hperm)) in Hin.
    unfold listing in Hin. apply filter_In in Hin. tauto.
  - intros Hnd. apply firstn_NoDup.
    apply (Permutation_NoDup Hperm). apply NoDup_filter. exact Hnd.
Qed.

Lemma batch_is_png_listing_witness :
  is_png "c.png" = true /\ In "c.png"%string (entries "in" (files world_bac)).
Proof.
  apply (proj1 (@batch_is_png_listing "in" "out" (Some (0, 0, 1, 1)) None
                  None world_bac _ (0, 0, 1, 1)
                  ["a.png"; "b.png"; "c.png"]%string
                  ltac:(vm_compute; reflexivity))).
  simpl. auto.
Defined.

(** ** Limits beyond the batch and below zero *)

(** X17.  Let a run without limit reach the loop with a batch of [n]
    names.  With a limit [k >= n] (and [k > 0]) the batch is the same; with
    a negative limit [k] the batch loses its last [-k] names, all of them
    when [-k >= n]. *)
Theorem limit_out_of_range (input_folder output_folder : string)
  (manual_bounds : option rect) (verify_idx : option Z) (k : Z)
  (w wp : world) (bounds : rect) (batch : list string) :
  prepare input_folder output_folder manual_bounds verify_idx None w
  = (Ret (Some (bounds, batch)), wp) ->
  (0 < k -> Z.of_nat (length batch) <= k ->
   prepare input_folder output_folder manual_bounds verify_idx (Some k) w
   = (Ret (Some (bounds, batch)), emit (EvPrint (MsgLimiting k)) wp)) /\
  (k < 0 ->
   prepare input_folder output_folder manual_bounds verify_idx (Some k) w
   = (Ret (Some (bounds, firstn (length batch - Z.to_nat (- k)) batch)),
      emit (EvPrint (MsgLimiting k)) wp)).
Proof.
  intros H.
  assert (Hk : k <> 0 ->
          prepare input_folder output_folder manual_bounds verify_idx
            (Some k) w
          = (Ret (Some (bounds, Py.slice_to batch k)),
             emit (EvPrint (MsgLimiting k)) wp)).
  { intros Hk0. rewrite prepare_limit. unfold bind at 1. rewrite H.
    unfold bind. rewrite apply_limit_run. unfold limit_truthy.
    destruct (Z.eqb_spec k 0); [contradiction|]. reflexivity. }
  split.
  - intros Hpos Hlen. rewrite Hk by lia. unfold Py.slice_to.
    destruct (Z.leb_spec 0 k); [|lia].
    rewrite firstn_all2 by lia. reflexivity.
  - intros Hneg. rewrite Hk by lia. unfold Py.slice_to.
    destruct (Z.leb_spec 0 k); [lia|].
    replace (Z.to_nat (Z.of_nat (length batch) + k))
      with (length batch - Z.to_nat (- k))%nat by lia.
    reflexivity.
Qed.

Lemma limit_out_of_range_witness :
  exists wp,
    prepare "in" "out" (Some (0, 0, 1, 1)) None (Some (-1)) world_bac
    = (Ret (Some ((0, 0, 1, 1), ["a.png"; "b.png"]%string)), wp) /\
    exists wp',
      prepare "in" "out" (Some (0, 0, 1, 1)) None (Some 7) world_bac
      = (Ret (Some ((0, 0, 1, 1), ["a.png"; "b.png"; "c.png"]%string)), wp').
Proof.
  eexists. split.
  - apply (proj2 (@limit_out_of_range "in" "out" (Some (0, 0, 1, 1)) None
                    (-1) world_bac _ (0, 0, 1, 1)
                    ["a.png"; "b.png"; "c.png"]%string eq_refl)).
    reflexivity.
  - eexists.
    apply (proj1 (@limit_out_of_range "in" "out" (Some (0, 0, 1, 1)) None
                    7 world_bac _ (0, 0, 1, 1)
                    ["a.png"; "b.png"; "c.png"]%string eq_refl)).
    + reflexivity.
    + vm_compute. discriminate.
Defined.

(** ** Which names are taken *)

Section Extension.

Local Open Scope string_scope.

Lemma lower_append (a b : string) :
  Py.lower (a ++ b) = Py.lower a ++ Py.lower b.
Proof. induction a as [|c a IH]; simpl; [reflexivity|]. rewrite IH. reflexivity. Qed.

Lemma lower_length (s : string) :
  String.length (Py.lower s) = String.length s.
Proof. induction s as [|c s IH]; simpl; [reflexivity|]. rewrite IH. reflexivity. Qed.

Lemma string_length_append (a b : string) :
  String.length (a ++ b) = (String.length a + String.length b)%nat.
Proof. induction a as [|c a IH]; simpl; [reflexivity|]. rewrite IH. reflexivity. Qed.

Lemma substring_skip (a b : string) (m : nat) :
  substring (String.length a) m (a ++ b) = substring 0 m b.
Proof. induction a as [|c a IH]; simpl; [reflexivity|]. exact IH. Qed.

Lemma substring_all (b : string) : substring 0 (String.length b) b = b.
Proof. induction b as [|c b IH]; simpl; [reflexivity|]. rewrite IH. reflexivity. Qed.

Lemma substring_split (s : string) :
  forall k, (k <= String.length s)%nat ->
  s = substring 0 k s ++ substring k (String.length s - k) s.
Proof.
  induction s as [|c s IH]; intros k Hk; simpl in Hk.
  - assert (k = 0)%nat by lia. subst k. reflexivity.
  - destruct k as [|k].
    + simpl. rewrite substring_all. reflexivity.
    + simpl. f_equal. apply IH. lia.
Qed.

Lemma lower_substring (s : string) :
  forall n m, Py.lower (substring n m s) = substring n m (Py.lower s).
Proof.
  induction s as [|c s IH]; intros [|n] [|m]; simpl; try reflexivity.
  - rewrite IH. reflexivity.
  - apply IH.
  - apply IH.
Qed.

End Extension.

(** X18.  A name is taken as a PNG file exactly when it ends in [.png]
    written in any letter case ([.png], [.PNG], [.Png], ...); in particular
    a name shorter than four characters never is. *)
Theorem is_png_iff (f : string) :
  is_png f = true <->
  exists stem ext : string,
    f = (stem ++ ext)%string /\ Py.lower ext = ".png"%string.
Proof.
  unfold is_png, Py.endswith. cbv zeta. rewrite lower_length.
  change (String.length ".png") with 4%nat.
  split.
  - intros H. apply andb_true_iff in H as [Hlen Hsuf].
    apply Nat.leb_le in Hlen. apply String.eqb_eq in Hsuf.
    exists (substring 0 (String.length f - 4)%nat f),
           (substring (String.length f - 4)%nat 4 f).
    split.
    + rewrite (@substring_split f (String.length f - 4)%nat) at 1 by lia.
      do 2 f_equal. lia.
    + rewrite lower_substring. exact Hsuf.
  - intros (stem & ext & -> & Hext).
    assert (Hl : String.length ext = 4%nat).
    { rewrite <- (lower_length ext), Hext. reflexivity. }
    rewrite string_length_append, Hl, lower_append, Hext.
    apply andb_true_iff. split; [apply Nat.leb_le; lia|].
    replace (String.length stem + 4 - 4)%nat
      with (String.length (Py.lower stem))
      by (rewrite lower_length; lia).
    rewrite substring_skip. reflexivity.
Qed.

Lemma is_png_iff_witness :
  is_png "Page 01.PnG" = true.
Proof.
  apply (proj2 (is_png_iff "Page 01.PnG")).
  exists "Page 01"%string, ".PnG"%string. split; reflexivity.
Defined.

(** ** Content the column means do not show *)

Section FaintRows.

Lemma zip_cons_sum_lower (b s : Q) (n : nat) (r : list Q) :
  Forall (fun x => b <= x)%Q r -> forall cols,
  Forall (fun c => (s <= Qsum c)%Q /\ length c = n) cols ->
  Forall (fun c => (b + s <= Qsum c)%Q /\ length c = S n) (zip_cons r cols).
Proof.
  induction 1 as [|x r Hx _ IH]; intros cols Hc; [constructor|].
  destruct Hc as [|c cols [Hc Hl] Hcs]; simpl; constructor.
  - split; [|simpl; congruence].
    change (Qsum (x :: c)) with (x + Qsum c)%Q.
    apply Qplus_le_compat; assumption.
  - apply IH. exact Hcs.
Qed.

(** Every column sums to at least the sum of the lower bounds of the
    rows. *)
Lemma columns_sum_lower (w : nat) (px : list (list Q)) (bs : list Q) :
  Forall2 (fun r b => Forall (fun x => b <= x)%Q r) px bs ->
  Forall (fun c => (Qsum bs <= Qsum c)%Q /\ length c = length px)
         (columns w px).
Proof.
  unfold columns. induction 1 as [|r b px bs Hr _ IH]; simpl.
  - apply Forall_forall. intros c Hc. apply repeat_spec in Hc. subst c.
    split; [apply Qle_refl|reflexivity].
  - apply zip_cons_sum_lower; assumption.
Qed.

Lemma Qsum_inject_Z (bs : list Z) :
  (Qsum (map inject_Z bs) == inject_Z (Zsum bs))%Q.
Proof.
  induction bs as [|b bs IH]; simpl; [reflexivity|].
  rewrite IH, <- inject_Z_plus. reflexivity.
Qed.

Lemma lt_float_sum_false (c : list Q) :
  (threshold * inject_Z (Z.of_nat (length c)) <= Qsum c)%Q ->
  lt_float (np_mean c) threshold = false.
Proof.
  intros H. destruct c as [|x c]; [reflexivity|].
  unfold np_mean, lt_float. apply Qltb_false.
  apply Qle_shift_div_l; [|exact H].
  unfold Qlt, inject_Z. simpl. lia.
Qed.

Lemma nth_all_false (flags : list bool) (i : nat) :
  Forall (fun b => b = false) flags -> nth i flags false = false.
Proof.
  intros H. revert i. induction H as [|b fl Hb _ IH]; intros [|i]; simpl;
    auto.
Qed.

End FaintRows.

(** X19.  Rows are not enough: when every sample of row [i] is at least
    [b_i] and the [b_i] average to the threshold or more, no column mean is
    below the threshold and the detector answers [None], however dark
    single rows are (a thin dark rule on a tall white page is not
    found). *)
Theorem faint_rows_not_detected (h w : nat) (px : list (list Z))
  (bs : list Z) :
  wf_ndarray (Arr2 h w px) ->
  Forall2 (fun r b => Forall (fun x => b <= x) r) px bs ->
  250 * Z.of_nat h <= Zsum bs ->
  find_content_bounds (Arr2 h w px) = None.
Proof.
  intros [Hh Hw] Hb Hsum. apply bounds_none_of_flags. right.
  intros j. apply nth_all_false.
  unfold col_flags, mean_axis0. simpl. rewrite map_map. apply Forall_map.
  assert (HbQ : Forall2 (fun r b => Forall (fun x => b <= x)%Q r)
                        (map (map inject_Z) px) (map inject_Z bs)).
  { clear -Hb. induction Hb as [|r b px bs Hr _ IH]; simpl; constructor;
      [|exact IH].
    apply Forall_map. eapply Forall_impl; [|exact Hr].
    intros x Hx. rewrite <- Zle_Qle. exact Hx. }
  pose proof (columns_sum_lower w HbQ) as Hc.
  eapply Forall_impl; [|exact Hc].
  intros c [Hs Hl]. apply lt_float_sum_false.
  rewrite Hl, length_map, Hh.
  eapply Qle_trans; [|exact Hs].
  rewrite Qsum_inject_Z. change threshold with (inject_Z 250).
  rewrite <- inject_Z_mult, <- Zle_Qle. exact Hsum.
Qed.

Lemma faint_rows_not_detected_witness :
  find_content_bounds
    (Arr2 3 2 [[255; 255]; [240; 240]; [255; 255]]) = None /\
  nth 1 (row_flags (to_gray (Arr2 3 2 [[255; 255]; [240; 240]; [255; 255]])))
      false = true.
Proof.
  split; [|reflexivity].
  apply (@faint_rows_not_detected 3 2 [[255; 255]; [240; 240]; [255; 255]]
           [255; 240; 255]).
  - split; [reflexivity|]. repeat constructor.
  - repeat constructor; lia.
  - simpl. lia.
Defined.
